(** * be/src/vec/exec/scan/scanner_scheduler.h

    A shallow embedding of the scan-task scheduling layer: the
    [SimplifiedScanTask] adapter, the [SimplifiedScanScheduler] wrapper
    around a worker pool, and the process-wide [ScannerScheduler].

    The header only uses the worker pool through [util/threadpool.h], so
    the pool is an interface here (a type class), and every member
    function of the scheduler is written in a small monad that threads
    the scheduler object, records the calls made on the pool and the log
    lines written, and faults when the empty [_scan_thread_pool] pointer
    is dereferenced.

    C++ [int] arguments are carried as [Z]: the header only compares and
    forwards them, it performs no arithmetic on them. *)

From Stdlib Require Import ZArith List String Bool Lia.
Import ListNotations.

Open Scope string_scope.
Open Scope list_scope.
Open Scope Z_scope.

(** ** common/status.h *)

(** [INTERNAL_ERROR] is the one code the header constructs itself; the
    others are the kinds of failure the pool and the coordinator report. *)
Inductive ErrorCode : Type :=
| INTERNAL_ERROR
| INITIALIZATION_ERROR
| SUBMISSION_REJECTED
| ADMISSION_FULL
| RESIZE_FAILED.

Inductive Status : Type :=
| OK
| Error (code : ErrorCode) (msg : string).

Definition ok (st : Status) : bool :=
  match st with
  | OK => true
  | Error _ _ => false
  end.

(** [Status::InternalError<false>(fmt, arg)] with one [{}] hole: the
    text before the hole, the argument, the text after it. *)
Definition InternalError (before arg after : string) : Status :=
  Error INTERNAL_ERROR (String.append before (String.append arg after)).

(** ** Handles of objects the header only names *)

(** A [ScannerContext] is known here by its identity only. *)
Definition ScannerContext := nat.
Definition CgroupCpuCtl := nat.

(** [std::shared_ptr<T>]: empty, or an owning reference to an object. *)
Definition shared_ptr (T : Type) := option T.
(** [std::weak_ptr<T>]: empty, or a non-owning reference. *)
Definition weak_ptr (T : Type) := option T.

(** [std::function<void()>]: an executable unit, known by its identity. *)
Inductive function : Type :=
| empty_function
| callable (id : nat).

(** [std::shared_mutex] *)
Inductive shared_mutex : Type :=
| unlocked
| locked_shared (readers : nat)
| locked_exclusive.

(** ** SimplifiedScanTask *)

Record SimplifiedScanTask : Type := mkSimplifiedScanTask {
  scan_func : function;
  scanner_context : shared_ptr ScannerContext
}.

(** [SimplifiedScanTask() = default] *)
Definition SimplifiedScanTask_default : SimplifiedScanTask :=
  {| scan_func := empty_function; scanner_context := None |}.

(** The lambda [[scan_task] { scan_task.scan_func(); }]: it owns a copy
    of the task (capture by value), and its body calls the task's
    executable unit. *)
Record Closure : Type := mkClosure {
  captured_scan_task : SimplifiedScanTask
}.

Definition closure_body (cl : Closure) : function :=
  scan_func (captured_scan_task cl).

(** The contexts a closure owns a reference to: the [shared_ptr] inside
    the captured task. *)
Definition closure_owns (cl : Closure) (c : ScannerContext) : Prop :=
  scanner_context (captured_scan_task cl) = Some c.

(** ** util/threadpool.h, as far as the header uses it *)

(** The settings [start] gives the builder. A field left [None] has not
    been set. *)
Record ThreadPoolBuilder : Type := mkThreadPoolBuilder {
  b_name : string;
  b_workload_group : string;
  b_min_threads : option Z;
  b_max_threads : option Z;
  b_max_queue_size : option Z;
  b_cgroup_cpu_ctl : option (weak_ptr CgroupCpuCtl)
}.

Definition ThreadPoolBuilder_new (name workload_group : string)
  : ThreadPoolBuilder :=
  {| b_name := name; b_workload_group := workload_group;
     b_min_threads := None; b_max_threads := None;
     b_max_queue_size := None; b_cgroup_cpu_ctl := None |}.

Definition builder_set_min_threads (n : Z) (b : ThreadPoolBuilder) :=
  {| b_name := b_name b; b_workload_group := b_workload_group b;
     b_min_threads := Some n; b_max_threads := b_max_threads b;
     b_max_queue_size := b_max_queue_size b;
     b_cgroup_cpu_ctl := b_cgroup_cpu_ctl b |}.

Definition builder_set_max_threads (n : Z) (b : ThreadPoolBuilder) :=
  {| b_name := b_name b; b_workload_group := b_workload_group b;
     b_min_threads := b_min_threads b; b_max_threads := Some n;
     b_max_queue_size := b_max_queue_size b;
     b_cgroup_cpu_ctl := b_cgroup_cpu_ctl b |}.

Definition builder_set_max_queue_size (n : Z) (b : ThreadPoolBuilder) :=
  {| b_name := b_name b; b_workload_group := b_workload_group b;
     b_min_threads := b_min_threads b; b_max_threads := b_max_threads b;
     b_max_queue_size := Some n;
     b_cgroup_cpu_ctl := b_cgroup_cpu_ctl b |}.

Definition builder_set_cgroup_cpu_ctl (c : weak_ptr CgroupCpuCtl)
  (b : ThreadPoolBuilder) :=
  {| b_name := b_name b; b_workload_group := b_workload_group b;
     b_min_threads := b_min_threads b; b_max_threads := b_max_threads b;
     b_max_queue_size := b_max_queue_size b;
     b_cgroup_cpu_ctl := Some c |}.

(** The [ThreadPool] class is not part of this header: the scheduler is
    written against its interface. [tp_build b old] is
    [b.build(&ptr)] where [old] is what [ptr] held; it returns the status
    and what [ptr] holds afterwards. The getters are [const]. *)
Class ThreadPool (pool : Type) : Type := {
  tp_build : ThreadPoolBuilder -> option pool -> Status * option pool;
  tp_submit_func : Closure -> pool -> Status * pool;
  tp_shutdown : pool -> pool;
  tp_wait : pool -> pool;
  tp_min_threads : pool -> Z;
  tp_max_threads : pool -> Z;
  tp_set_min_threads : Z -> pool -> Status * pool;
  tp_set_max_threads : Z -> pool -> Status * pool;
  tp_get_queue_size : pool -> Z;
  tp_num_active_threads : pool -> Z;
  tp_debug_info : pool -> list Z;
  (** the queue capacity the pool was built with *)
  tp_max_queue_size : pool -> Z;
  (** the closures the pool holds: queued, or running *)
  tp_closures : pool -> list Closure
}.

(** ** Effects of a member function *)

Inductive Severity : Type := INFO | WARNING.

(** One operand of a [LOG(..) << a << b] line. *)
Inductive LogArg : Type :=
| text (s : string)
| status_text (st : Status).

(** A call on the pool that may change it. *)
Inductive PoolCall : Type :=
| SetMinThreads (n : Z)
| SetMaxThreads (n : Z)
| SubmitFunc (cl : Closure)
| Shutdown
| Wait.

Section Scheduler.

Context {pool : Type} {TP : ThreadPool pool}.

(** What a member function does to its environment, in order. A pool
    call comes with the status it returned ([None] for a [void] call)
    and the pool as it is when the call returns. The last two are what
    taking and leaving [_lock] would look like; no member function
    defined in the header does either. *)
Inductive Event : Type :=
| EvPool (c : PoolCall) (returned : option Status) (after : pool)
| EvBuild (b : ThreadPoolBuilder) (st : Status)
| EvLog (sev : Severity) (line : list LogArg)
| EvLockAcquire
| EvLockRelease.

(** ** SimplifiedScanScheduler *)

Record SimplifiedScanScheduler : Type := mkSimplifiedScanScheduler {
  _scan_thread_pool : option pool;     (* std::unique_ptr<ThreadPool> *)
  _is_stop : bool;                     (* std::atomic<bool> *)
  _cgroup_cpu_ctl : weak_ptr CgroupCpuCtl;
  _sched_name : string;
  _workload_group : string;
  _lock : shared_mutex
}.

(** The constructor: [_is_stop(false)], the three arguments stored, the
    pool pointer and the lock default-initialised. *)
Definition SimplifiedScanScheduler_new (sched_name : string)
  (cgroup_cpu_ctl : shared_ptr CgroupCpuCtl) (workload_group : string)
  : SimplifiedScanScheduler :=
  {| _scan_thread_pool := None;
     _is_stop := false;
     _cgroup_cpu_ctl := cgroup_cpu_ctl;
     _sched_name := sched_name;
     _workload_group := workload_group;
     _lock := unlocked |}.

Definition with_pool (q : option pool) (s : SimplifiedScanScheduler) :=
  {| _scan_thread_pool := q;
     _is_stop := _is_stop s;
     _cgroup_cpu_ctl := _cgroup_cpu_ctl s;
     _sched_name := _sched_name s;
     _workload_group := _workload_group s;
     _lock := _lock s |}.

Definition with_is_stop (b : bool) (s : SimplifiedScanScheduler) :=
  {| _scan_thread_pool := _scan_thread_pool s;
     _is_stop := b;
     _cgroup_cpu_ctl := _cgroup_cpu_ctl s;
     _sched_name := _sched_name s;
     _workload_group := _workload_group s;
     _lock := _lock s |}.

(** The outcome of a member function: it returns [a], leaving the object
    as [s] after the events [tr]; or it dereferences the empty
    [_scan_thread_pool]. *)
Inductive Outcome (A : Type) : Type :=
| Done (a : A) (s : SimplifiedScanScheduler) (tr : list Event)
| NullDeref.

Arguments Done {A} a s tr.
Arguments NullDeref {A}.

Definition M (A : Type) : Type := SimplifiedScanScheduler -> Outcome A.

Definition ret {A : Type} (a : A) : M A := fun s => Done a s [].

Definition bind {A B : Type} (m : M A) (f : A -> M B) : M B :=
  fun s =>
    match m s with
    | Done a s1 t1 =>
        match f a s1 with
        | Done b s2 t2 => Done b s2 (t1 ++ t2)
        | NullDeref => NullDeref
        end
    | NullDeref => NullDeref
    end.

Notation "x <- m ;; k" := (bind m (fun x => k))
  (at level 61, m at next level, right associativity).
Notation "m ;; k" := (bind m (fun _ => k))
  (at level 61, right associativity).

Definition when (b : bool) (m : M unit) : M unit :=
  if b then m else ret tt.

(** Reading a member. *)
Definition load {A : Type} (f : SimplifiedScanScheduler -> A) : M A :=
  fun s => Done (f s) s [].

(** [_is_stop.store(b)] *)
Definition store_is_stop (b : bool) : M unit :=
  fun s => Done tt (with_is_stop b s) [].

(** [LOG(sev) << ...] *)
Definition LOG (sev : Severity) (line : list LogArg) : M unit :=
  fun s => Done tt s [EvLog sev line].

(** [_scan_thread_pool->getter()] *)
Definition pool_get {A : Type} (getter : pool -> A) : M A :=
  fun s =>
    match _scan_thread_pool s with
    | Some p => Done (getter p) s []
    | None => NullDeref
    end.

(** [_scan_thread_pool->f(..)] for an [f] that returns a [Status]. *)
Definition pool_call (f : pool -> Status * pool) (c : PoolCall)
  : M Status :=
  fun s =>
    match _scan_thread_pool s with
    | Some p =>
        let r := f p in
        Done (fst r) (with_pool (Some (snd r)) s)
             [EvPool c (Some (fst r)) (snd r)]
    | None => NullDeref
    end.

(** [_scan_thread_pool->f()] for an [f] that returns nothing. *)
Definition pool_do (f : pool -> pool) (c : PoolCall) : M unit :=
  fun s =>
    match _scan_thread_pool s with
    | Some p => Done tt (with_pool (Some (f p)) s) [EvPool c None (f p)]
    | None => NullDeref
    end.

(** [builder.build(&_scan_thread_pool)] *)
Definition build (b : ThreadPoolBuilder) : M Status :=
  fun s =>
    let r := tp_build b (_scan_thread_pool s) in
    Done (fst r) (with_pool (snd r) s) [EvBuild b (fst r)].

Definition stop : M unit :=
  store_is_stop true ;;
  pool_do tp_shutdown Shutdown ;;
  pool_do tp_wait Wait.

Definition start (max_thread_num min_thread_num queue_size : Z)
  : M Status :=
  name <- load _sched_name ;;
  group <- load _workload_group ;;
  ctl <- load _cgroup_cpu_ctl ;;
  st <- build (builder_set_cgroup_cpu_ctl ctl
                (builder_set_max_queue_size queue_size
                  (builder_set_max_threads max_thread_num
                    (builder_set_min_threads min_thread_num
                      (ThreadPoolBuilder_new name group))))) ;;
  if negb (ok st) then ret st      (* RETURN_IF_ERROR *)
  else ret OK.

Definition submit_scan_task (scan_task : SimplifiedScanTask) : M Status :=
  stopped <- load _is_stop ;;
  if negb stopped then
    pool_call (tp_submit_func (mkClosure scan_task))
              (SubmitFunc (mkClosure scan_task))
  else
    name <- load _sched_name ;;
    ret (InternalError "scanner pool " name " is shutdown.").

Definition reset_thread_num (new_max_thread_num new_min_thread_num : Z)
  : M unit :=
  cur_max_thread_num <- pool_get tp_max_threads ;;
  cur_min_thread_num <- pool_get tp_min_threads ;;
  if (cur_max_thread_num =? new_max_thread_num)
     && (cur_min_thread_num =? new_min_thread_num) then
    ret tt
  else if new_max_thread_num >=? cur_max_thread_num then
    st_max <- pool_call (tp_set_max_threads new_max_thread_num)
                        (SetMaxThreads new_max_thread_num) ;;
    when (negb (ok st_max))
      (LOG WARNING [text "Failed to set max threads for scan thread pool: ";
                    status_text st_max]) ;;
    st_min <- pool_call (tp_set_min_threads new_min_thread_num)
                        (SetMinThreads new_min_thread_num) ;;
    when (negb (ok st_min))
      (LOG WARNING [text "Failed to set min threads for scan thread pool: ";
                    status_text st_min])
  else
    st_min <- pool_call (tp_set_min_threads new_min_thread_num)
                        (SetMinThreads new_min_thread_num) ;;
    when (negb (ok st_min))
      (LOG WARNING [text "Failed to set min threads for scan thread pool: ";
                    status_text st_min]) ;;
    st_max <- pool_call (tp_set_max_threads new_max_thread_num)
                        (SetMaxThreads new_max_thread_num) ;;
    when (negb (ok st_max))
      (LOG WARNING [text "Failed to set max threads for scan thread pool: ";
                    status_text st_max]).

Definition reset_max_thread_num (thread_num : Z) : M unit :=
  max_thread_num <- pool_get tp_max_threads ;;
  when (negb (max_thread_num =? thread_num))
    (st <- pool_call (tp_set_max_threads thread_num)
                     (SetMaxThreads thread_num) ;;
     when (negb (ok st))
       (name <- load _sched_name ;;
        LOG INFO [text "reset max thread num failed, sche name=";
                  text name])).

Definition reset_min_thread_num (thread_num : Z) : M unit :=
  min_thread_num <- pool_get tp_min_threads ;;
  when (negb (min_thread_num =? thread_num))
    (st <- pool_call (tp_set_min_threads thread_num)
                     (SetMinThreads thread_num) ;;
     when (negb (ok st))
       (name <- load _sched_name ;;
        LOG INFO [text "reset min thread num failed, sche name=";
                  text name])).

Definition get_queue_size : M Z := pool_get tp_get_queue_size.

Definition get_active_threads : M Z := pool_get tp_num_active_threads.

Definition get_max_threads : M Z := pool_get tp_max_threads.

Definition thread_debug_info : M (list Z) := pool_get tp_debug_info.

(** [~SimplifiedScanScheduler()], outside of [BE_TEST]. *)
Definition destroy : M unit :=
  stop ;;
  name <- load _sched_name ;;
  LOG INFO [text "Scanner sche "; text name; text " shutdown"].

End Scheduler.

Arguments Event pool : clear implicits.
Arguments SimplifiedScanScheduler pool : clear implicits.
Arguments Outcome pool A : clear implicits.
Arguments M pool A : clear implicits.
Arguments Done {pool A} a s tr.
Arguments NullDeref {pool A}.

(** ** Reading a trace *)

Section Traces.

Context {pool : Type}.

Definition pool_calls (tr : list (Event pool)) : list PoolCall :=
  flat_map (fun e => match e with EvPool c _ _ => [c] | _ => [] end) tr.

(** The status of every pool call that returns one. *)
Definition pool_statuses (tr : list (Event pool)) : list Status :=
  flat_map (fun e => match e with EvPool _ (Some st) _ => [st] | _ => [] end)
           tr.

(** The pool as each pool call left it. *)
Definition pool_states (tr : list (Event pool)) : list pool :=
  flat_map (fun e => match e with EvPool _ _ p => [p] | _ => [] end) tr.

Definition log_lines (tr : list (Event pool))
  : list (Severity * list LogArg) :=
  flat_map (fun e => match e with EvLog v l => [(v, l)] | _ => [] end) tr.

Definition builds (tr : list (Event pool)) : list ThreadPoolBuilder :=
  flat_map (fun e => match e with EvBuild b _ => [b] | _ => [] end) tr.

Definition is_lock_event (e : Event pool) : bool :=
  match e with
  | EvLockAcquire | EvLockRelease => true
  | _ => false
  end.

(** [guarded held tr]: every pool call and every pool construction of
    [tr] happens while [_lock] is held, [held] telling whether it is at
    the start, and [tr] does not end holding it. *)
Fixpoint guarded (held : bool) (tr : list (Event pool)) : bool :=
  match tr with
  | [] => negb held
  | EvLockAcquire :: tr' => negb held && guarded true tr'
  | EvLockRelease :: tr' => held && guarded false tr'
  | EvPool _ _ _ :: tr' => held && guarded held tr'
  | EvBuild _ _ :: tr' => held && guarded held tr'
  | EvLog _ _ :: tr' => guarded held tr'
  end.

Definition is_set_call (c : PoolCall) : bool :=
  match c with
  | SetMinThreads _ | SetMaxThreads _ => true
  | _ => false
  end.

End Traces.

(** ** Sequences of calls on one scheduler *)

Inductive Op : Type :=
| OpStart (max_thread_num min_thread_num queue_size : Z)
| OpStop
| OpSubmitScanTask (scan_task : SimplifiedScanTask)
| OpResetThreadNum (new_max_thread_num new_min_thread_num : Z)
| OpResetMaxThreadNum (thread_num : Z)
| OpResetMinThreadNum (thread_num : Z)
| OpGetQueueSize
| OpGetActiveThreads
| OpGetMaxThreads
| OpThreadDebugInfo.

Definition is_resize (o : Op) : bool :=
  match o with
  | OpResetThreadNum _ _ | OpResetMaxThreadNum _ | OpResetMinThreadNum _ =>
      true
  | _ => false
  end.

(** The start, stop and resize operations. *)
Definition is_reconfiguration (o : Op) : bool :=
  match o with
  | OpStart _ _ _ | OpStop => true
  | _ => is_resize o
  end.

Section Runs.

Context {pool : Type} {TP : ThreadPool pool}.

Definition discard {A : Type} (m : M pool A) : M pool unit :=
  bind m (fun _ => ret tt).

Definition run_op (o : Op) : M pool unit :=
  match o with
  | OpStart a b c => discard (start a b c)
  | OpStop => stop
  | OpSubmitScanTask t => discard (submit_scan_task t)
  | OpResetThreadNum a b => reset_thread_num a b
  | OpResetMaxThreadNum n => reset_max_thread_num n
  | OpResetMinThreadNum n => reset_min_thread_num n
  | OpGetQueueSize => discard get_queue_size
  | OpGetActiveThreads => discard get_active_threads
  | OpGetMaxThreads => discard get_max_threads
  | OpThreadDebugInfo => discard thread_debug_info
  end.

Fixpoint run_ops (os : list Op) : M pool unit :=
  match os with
  | [] => ret tt
  | o :: os' => bind (run_op o) (fun _ => run_ops os')
  end.

(** The log line a failed call leaves, none for a successful one. *)
Definition logged_unless_ok (st : Status) (sev : Severity)
  (line : list LogArg) : list (Event pool) :=
  if ok st then [] else [EvLog sev line].

(** The trace of two pool calls in a row, each followed by the warning
    its failure costs. *)
Definition two_phase_trace (c1 : PoolCall) (r1 : Status * pool)
  (what1 : string) (c2 : PoolCall) (r2 : Status * pool) (what2 : string)
  : list (Event pool) :=
  EvPool c1 (Some (fst r1)) (snd r1)
  :: logged_unless_ok (fst r1) WARNING
       [text what1; status_text (fst r1)]
  ++ EvPool c2 (Some (fst r2)) (snd r2)
  :: logged_unless_ok (fst r2) WARNING
       [text what2; status_text (fst r2)].

(** What no member function of the header does to the object: the
    immutable members and [_lock] stay as they are, a set [_is_stop]
    stays set, and no event touches [_lock]. *)
Definition members_kept (s s' : SimplifiedScanScheduler pool)
  (tr : list (Event pool)) : Prop :=
  _sched_name s' = _sched_name s
  /\ _workload_group s' = _workload_group s
  /\ _cgroup_cpu_ctl s' = _cgroup_cpu_ctl s
  /\ _lock s' = _lock s
  /\ (_is_stop s = true -> _is_stop s' = true)
  /\ existsb is_lock_event tr = false.

(** [m] keeps the relation [R] between the object before and after. *)
Definition keeps {A : Type}
  (R : SimplifiedScanScheduler pool -> SimplifiedScanScheduler pool ->
       list (Event pool) -> Prop)
  (m : M pool A) : Prop :=
  forall s a s' tr, m s = Done a s' tr -> R s s' tr.

(** *** Who keeps a context alive

    A [ScannerContext] lives as long as some [shared_ptr] to it does.
    The holders are the references kept outside the scheduler and the
    closures the pool holds; the scheduler object has no member of type
    [shared_ptr<ScannerContext>]. *)

Definition pool_closures (s : SimplifiedScanScheduler pool) : list Closure :=
  match _scan_thread_pool s with
  | Some p => tp_closures p
  | None => []
  end.

Definition holds (c : ScannerContext) (r : shared_ptr ScannerContext)
  : bool :=
  match r with
  | Some c' => Nat.eqb c c'
  | None => false
  end.

Definition use_count (c : ScannerContext)
  (external : list (shared_ptr ScannerContext))
  (s : SimplifiedScanScheduler pool) : nat :=
  (List.length (filter (holds c) external)
   + List.length (filter (fun cl => holds c (scanner_context
                                           (captured_scan_task cl)))
                    (pool_closures s)))%nat.

Definition alive (c : ScannerContext)
  (external : list (shared_ptr ScannerContext))
  (s : SimplifiedScanScheduler pool) : Prop :=
  (0 < use_count c external s)%nat.

(** *** What the scheduler expects of a pool *)

(** A bound setter that reports success has set its bound and left the
    other one alone. *)
Class BoundSetters : Prop := {
  set_max_threads_ok : forall n p,
    ok (fst (tp_set_max_threads n p)) = true ->
    tp_max_threads (snd (tp_set_max_threads n p)) = n
    /\ tp_min_threads (snd (tp_set_max_threads n p)) = tp_min_threads p;
  set_min_threads_ok : forall n p,
    ok (fst (tp_set_min_threads n p)) = true ->
    tp_min_threads (snd (tp_set_min_threads n p)) = n
    /\ tp_max_threads (snd (tp_set_min_threads n p)) = tp_max_threads p
}.

(** The queue capacity is the builder's, and the bound setters leave it. *)
Class FixedCapacity : Prop := {
  build_capacity : forall b old q,
    b_max_queue_size b = Some q ->
    ok (fst (tp_build b old)) = true ->
    exists p, snd (tp_build b old) = Some p /\ tp_max_queue_size p = q;
  set_min_threads_capacity : forall n p,
    tp_max_queue_size (snd (tp_set_min_threads n p)) = tp_max_queue_size p;
  set_max_threads_capacity : forall n p,
    tp_max_queue_size (snd (tp_set_max_threads n p)) = tp_max_queue_size p
}.

(** A closure the pool admits is held by the pool. *)
Class HoldsAdmitted : Prop := {
  submit_func_holds : forall cl p,
    ok (fst (tp_submit_func cl p)) = true ->
    In cl (tp_closures (snd (tp_submit_func cl p)))
}.

End Runs.

Arguments BoundSetters pool {TP}.
Arguments FixedCapacity pool {TP}.
Arguments HoldsAdmitted pool {TP}.

(** ** A pool to run the scheduler on *)

Module SpecPool.

Record t : Type := mk {
  min_threads : Z;
  max_threads : Z;
  max_queue_size : Z;
  queue : list Closure;
  running : list Closure;
  is_shutdown : bool
}.

Definition with_min (n : Z) (p : t) : t :=
  mk n (max_threads p) (max_queue_size p) (queue p) (running p)
     (is_shutdown p).

Definition with_max (n : Z) (p : t) : t :=
  mk (min_threads p) n (max_queue_size p) (queue p) (running p)
     (is_shutdown p).

(** Modelled from the spec: [ThreadPool::set_min_threads] of
    util/threadpool.h is not among the sources. The pool keeps
    [min <= max] at every observable instant, so with [checked] it
    refuses a minimum above the current maximum; without [checked] it is
    a pool that takes any bound. *)
Definition set_min_threads (checked : bool) (n : Z) (p : t) : Status * t :=
  if checked && (n >? max_threads p)
  then (Error RESIZE_FAILED "min_threads above max_threads", p)
  else (OK, with_min n p).

(** Modelled from the spec: [ThreadPool::set_max_threads] of
    util/threadpool.h is not among the sources; see [set_min_threads]. *)
Definition set_max_threads (checked : bool) (n : Z) (p : t) : Status * t :=
  if checked && (min_threads p >? n)
  then (Error RESIZE_FAILED "max_threads below min_threads", p)
  else (OK, with_max n p).

(** Modelled from the spec: [ThreadPool::submit_func] of
    util/threadpool.h is not among the sources. A stopped pool never
    admits new work, and a full queue fails the submission at once. *)
Definition submit_func (cl : Closure) (p : t) : Status * t :=
  if is_shutdown p
  then (Error SUBMISSION_REJECTED "pool is shut down", p)
  else if Z.of_nat (List.length (queue p)) >=? max_queue_size p
  then (Error ADMISSION_FULL "queue is full", p)
  else (OK, mk (min_threads p) (max_threads p) (max_queue_size p)
               (queue p ++ [cl]) (running p) (is_shutdown p)).

(** Modelled from the spec: [ThreadPool::shutdown] of util/threadpool.h
    is not among the sources. *)
Definition shutdown (p : t) : t :=
  mk (min_threads p) (max_threads p) (max_queue_size p) (queue p)
     (running p) true.

(** Modelled from the spec: [ThreadPool::wait] of util/threadpool.h is
    not among the sources. It returns when all queued and in-flight work
    has completed. *)
Definition wait (p : t) : t :=
  mk (min_threads p) (max_threads p) (max_queue_size p) [] []
     (is_shutdown p).

(** Modelled from the spec: [ThreadPoolBuilder::build] of
    util/threadpool.h is not among the sources. It constructs the pool
    with the given bounds and queue capacity, and fails with an
    initialization error on invalid bounds. *)
Definition build (b : ThreadPoolBuilder) (old : option t)
  : Status * option t :=
  match b_min_threads b, b_max_threads b, b_max_queue_size b with
  | Some m, Some M, Some q =>
      if (0 <=? m) && (m <=? M) && (0 <? M) && (0 <=? q)
      then (OK, Some (mk m M q [] [] false))
      else (Error INITIALIZATION_ERROR "invalid bounds", old)
  | _, _, _ => (Error INITIALIZATION_ERROR "bounds not set", old)
  end.

Definition ops (checked : bool) : ThreadPool t :=
  {| tp_build := build;
     tp_submit_func := submit_func;
     tp_shutdown := shutdown;
     tp_wait := wait;
     tp_min_threads := min_threads;
     tp_max_threads := max_threads;
     tp_set_min_threads := set_min_threads checked;
     tp_set_max_threads := set_max_threads checked;
     tp_get_queue_size := fun p => Z.of_nat (List.length (queue p));
     tp_num_active_threads := fun p => Z.of_nat (List.length (running p));
     tp_debug_info := fun p => [Z.of_nat (List.length (running p));
                                 Z.of_nat (List.length (queue p))];
     tp_max_queue_size := max_queue_size;
     tp_closures := fun p => running p ++ queue p |}.

(** The pool that validates its bounds, and the one that does not. *)
Definition checked : ThreadPool t := ops true.
Definition unchecked : ThreadPool t := ops false.

End SpecPool.

(** ** ScannerScheduler

    The header declares the class and its members; [init], [submit] and
    [stop] are defined in a translation unit that is not among the
    sources. *)

Module ScannerScheduler.

Record t : Type := mk {
  _is_closed : bool;                           (* std::atomic_bool *)
  _is_init : bool;
  _remote_thread_pool_max_thread_num : Z
}.

(** [ScannerScheduler()]: the two flags have default member
    initialisers, the thread number has none and holds whatever [n] the
    storage held. *)
Definition new (n : Z) : t := mk false false n.

(** The lifecycle state of a unit of scan work. *)
Inductive TaskState : Type :=
| pending | running | finished | failed | cancelled.

Record ScanTask : Type := mkScanTask {
  cursor : nat;
  state : TaskState;
  owning_context : ScannerContext     (* non-owning back-reference *)
}.

(** What a call does: it returns, or it throws. *)
Inductive Result (A : Type) : Type :=
| Returns (a : A)
| Throws.

Arguments Returns {A} a.
Arguments Throws {A}.

Section Model.

(** The execution path a task is handed to, and the sizing policy of
    [init]: both live outside the header. *)
Variable execution_path :
  shared_ptr ScannerContext -> ScanTask -> Status * ScanTask.
Variable default_thread_num : Z -> Z.

(** Modelled from the spec: [ScannerScheduler::init] is declared in the
    header and defined elsewhere. One-time setup computing the default
    remote-scan pool sizing from a host sizing hint; it fails with an
    initialization error if pool construction fails. *)
Definition init (sizing_hint : Z) (pool_constructed : bool) (s : t)
  : Result (Status * t) :=
  if pool_constructed
  then Returns (OK, mk (_is_closed s) true (default_thread_num sizing_hint))
  else Returns (Error INITIALIZATION_ERROR "scan thread pool", s).

(** Modelled from the spec: [ScannerScheduler::submit] is declared in
    the header and defined elsewhere. It fails with a rejection error if
    the scheduler is closed; otherwise it hands the task to the
    execution path. It returns a status and never throws; on failure the
    task is left as it was. *)
Definition submit (ctx : shared_ptr ScannerContext) (scan_task : ScanTask)
  (s : t) : Result (Status * ScanTask) :=
  if _is_closed s
  then Returns (Error SUBMISSION_REJECTED "scheduler is closed", scan_task)
  else
    let r := execution_path ctx scan_task in
    if ok (fst r) then Returns r else Returns (fst r, scan_task).

(** Modelled from the spec: [ScannerScheduler::stop] is declared in the
    header and defined elsewhere. It sets the closed flag, then shuts
    down and drains the owned pool: the calls it makes on that pool are
    returned next to the object. *)
Definition stop (s : t) : t * list PoolCall :=
  (mk true (_is_init s) (_remote_thread_pool_max_thread_num s),
   [Shutdown; Wait]).

Inductive Call : Type :=
| CallInit (sizing_hint : Z) (pool_constructed : bool)
| CallSubmit (ctx : shared_ptr ScannerContext) (scan_task : ScanTask)
| CallStop.

(** The object after a call that returns; [None] after one that throws. *)
Definition after_call (c : Call) (s : t) : option t :=
  match c with
  | CallInit h b =>
      match init h b s with
      | Returns r => Some (snd r)
      | Throws => None
      end
  | CallSubmit ctx task =>
      match submit ctx task s with
      | Returns _ => Some s
      | Throws => None
      end
  | CallStop => Some (fst (stop s))
  end.

Fixpoint after_calls (cs : list Call) (s : t) : option t :=
  match cs with
  | [] => Some s
  | c :: cs' =>
      match after_call c s with
      | Some s' => after_calls cs' s'
      | None => None
      end
  end.

End Model.

End ScannerScheduler.

(** ** Concrete schedulers *)

Module Examples.

(** A scheduler named [scan] in the default workload group, as the
    constructor leaves it. *)
Definition constructed : SimplifiedScanScheduler SpecPool.t :=
  SimplifiedScanScheduler_new "scan" None "system".

(** The same scheduler running on a pool with bounds [(max 8, min 1)]
    and a queue of capacity 2. *)
Definition running : SimplifiedScanScheduler SpecPool.t :=
  with_pool (Some (SpecPool.mk 1 8 2 [] [] false)) constructed.

(** A task of context 7. *)
Definition task7 : SimplifiedScanTask :=
  mkSimplifiedScanTask (callable 0%nat) (Some 7%nat).

(** An execution path that marks the task running. *)
Definition run_at_once (ctx : shared_ptr ScannerContext)
  (t : ScannerScheduler.ScanTask) : Status * ScannerScheduler.ScanTask :=
  (OK, ScannerScheduler.mkScanTask (ScannerScheduler.cursor t)
         ScannerScheduler.running (ScannerScheduler.owning_context t)).

Definition pending_task : ScannerScheduler.ScanTask :=
  ScannerScheduler.mkScanTask 0%nat ScannerScheduler.pending 7%nat.

End Examples.

(** ** More about pools and calls *)

Definition is_start (o : Op) : bool :=
  match o with
  | OpStart _ _ _ => true
  | _ => false
  end.

Section Validation.

Context {pool : Type} {TP : ThreadPool pool}.

(** A pool whose setters take every bound that keeps [min <= max]. *)
Class AcceptsValidBounds : Prop := {
  set_max_threads_accepts : forall n p,
    tp_min_threads p <= n -> ok (fst (tp_set_max_threads n p)) = true;
  set_min_threads_accepts : forall n p,
    n <= tp_max_threads p -> ok (fst (tp_set_min_threads n p)) = true
}.

(** [stop()] followed by the destructor. *)
Definition stop_then_destroy : M pool unit :=
  bind stop (fun _ => destroy).

(** [reset_max_thread_num(n)] followed by [get_max_threads()]. *)
Definition reset_max_then_get (n : Z) : M pool Z :=
  bind (reset_max_thread_num n) (fun _ => get_max_threads).

End Validation.

Arguments AcceptsValidBounds pool {TP}.

(** * Properties *)

Ltac run_monad :=
  cbv [reset_thread_num reset_max_thread_num reset_min_thread_num
       submit_scan_task start stop destroy get_queue_size
       get_active_threads get_max_threads thread_debug_info discard
       run_op build bind ret when load store_is_stop LOG pool_get
       pool_call pool_do with_pool with_is_stop
       _scan_thread_pool _is_stop _cgroup_cpu_ctl _sched_name
       _workload_group _lock].

(** Name the answer of the next call on the pool, by cases on its status. *)
Ltac pool_step :=
  match goal with
  | |- context [tp_set_max_threads ?n ?p] =>
      is_var p; destruct (tp_set_max_threads n p) as [[|? ?] ?]
  | |- context [tp_set_min_threads ?n ?p] =>
      is_var p; destruct (tp_set_min_threads n p) as [[|? ?] ?]
  | |- context [tp_submit_func ?c ?p] =>
      is_var p; destruct (tp_submit_func c p) as [[|? ?] ?]
  end; cbn.

Section Properties.

Context {pool : Type} {TP : ThreadPool pool}.

(** Every resize operation returns on a scheduler that has a pool,
    whatever the pool answers, and leaves a scheduler that has a pool. *)
Lemma reset_thread_num_returns :
  forall (s : SimplifiedScanScheduler pool) p new_max new_min,
    _scan_thread_pool s = Some p ->
    exists p' tr,
      reset_thread_num new_max new_min s = Done tt (with_pool (Some p') s) tr
      /\ pool_calls tr
         = (if (tp_max_threads p =? new_max) && (tp_min_threads p =? new_min)
            then []
            else if new_max >=? tp_max_threads p
            then [SetMaxThreads new_max; SetMinThreads new_min]
            else [SetMinThreads new_min; SetMaxThreads new_max])
      /\ List.length (log_lines tr)
         = List.length (filter (fun st => negb (ok st)) (pool_statuses tr)).
Proof.
  intros [q b c n g l] p new_max new_min Hp. cbn in Hp. subst q.
  run_monad.
  destruct ((tp_max_threads p =? new_max) && (tp_min_threads p =? new_min)).
  - exists p, []. auto.
  - destruct (new_max >=? tp_max_threads p);
      repeat pool_step; eexists; eexists; auto.
Qed.

Lemma reset_max_thread_num_returns :
  forall (s : SimplifiedScanScheduler pool) p n,
    _scan_thread_pool s = Some p ->
    exists p' tr,
      reset_max_thread_num n s = Done tt (with_pool (Some p') s) tr
      /\ pool_calls tr
         = (if tp_max_threads p =? n then [] else [SetMaxThreads n])
      /\ List.length (log_lines tr)
         = List.length (filter (fun st => negb (ok st)) (pool_statuses tr)).
Proof.
  intros [q b c n' g l] p n Hp. cbn in Hp. subst q.
  run_monad.
  destruct (tp_max_threads p =? n); cbn [negb].
  - exists p, []. auto.
  - pool_step; eexists; eexists; auto.
Qed.

Lemma reset_min_thread_num_returns :
  forall (s : SimplifiedScanScheduler pool) p n,
    _scan_thread_pool s = Some p ->
    exists p' tr,
      reset_min_thread_num n s = Done tt (with_pool (Some p') s) tr
      /\ pool_calls tr
         = (if tp_min_threads p =? n then [] else [SetMinThreads n])
      /\ List.length (log_lines tr)
         = List.length (filter (fun st => negb (ok st)) (pool_statuses tr)).
Proof.
  intros [q b c n' g l] p n Hp. cbn in Hp. subst q.
  run_monad.
  destruct (tp_min_threads p =? n); cbn [negb].
  - exists p, []. auto.
  - pool_step; eexists; eexists; auto.
Qed.

(** *** The frame of every member function *)

Lemma members_kept_refl : forall s : SimplifiedScanScheduler pool,
  members_kept s s [].
Proof. intros s. repeat split; auto. Qed.

Lemma members_kept_trans :
  forall (s s1 s2 : SimplifiedScanScheduler pool) t1 t2,
    members_kept s s1 t1 -> members_kept s1 s2 t2 ->
    members_kept s s2 (t1 ++ t2).
Proof.
  intros s s1 s2 t1 t2 (A1 & A2 & A3 & A4 & A5 & A6)
    (B1 & B2 & B3 & B4 & B5 & B6).
  repeat split; try congruence; auto.
  rewrite existsb_app, A6, B6. reflexivity.
Qed.

Lemma keeps_ret : forall (A : Type) (a : A),
  keeps members_kept (ret a : M pool A).
Proof.
  intros A a s a' s' tr H. inversion H; subst. apply members_kept_refl.
Qed.

Lemma keeps_bind :
  forall (A B : Type) (m : M pool A) (f : A -> M pool B),
    keeps members_kept m -> (forall a, keeps members_kept (f a)) ->
    keeps members_kept (bind m f).
Proof.
  intros A B m f Hm Hf s b s' tr H. unfold bind in H.
  destruct (m s) as [a s1 t1|] eqn:E1; [|discriminate].
  destruct (f a s1) as [b' s2 t2|] eqn:E2; [|discriminate].
  inversion H; subst.
  eapply members_kept_trans; [eapply Hm | eapply Hf]; eassumption.
Qed.

Lemma keeps_when : forall (b : bool) (m : M pool unit),
  keeps members_kept m -> keeps members_kept (when b m).
Proof. intros [|] m Hm; [exact Hm | apply keeps_ret]. Qed.

Lemma keeps_load :
  forall (A : Type) (f : SimplifiedScanScheduler pool -> A),
    keeps members_kept (load f).
Proof.
  intros A f s a s' tr H. inversion H; subst. apply members_kept_refl.
Qed.

Lemma keeps_LOG : forall sev line,
  keeps members_kept (LOG sev line : M pool unit).
Proof.
  intros sev line s a s' tr H. inversion H; subst. repeat split; auto.
Qed.

Lemma keeps_store_is_stop_true :
  keeps members_kept (store_is_stop true : M pool unit).
Proof. intros s a s' tr H. inversion H; subst. repeat split; auto. Qed.

Lemma keeps_pool_get : forall (A : Type) (g : pool -> A),
  keeps members_kept (pool_get g).
Proof.
  intros A g s a s' tr H. unfold pool_get in H.
  destruct (_scan_thread_pool s); inversion H; subst.
  apply members_kept_refl.
Qed.

Lemma keeps_pool_call : forall (f : pool -> Status * pool) c,
  keeps members_kept (pool_call f c).
Proof.
  intros f c s a s' tr H. unfold pool_call in H.
  destruct (_scan_thread_pool s); inversion H; subst.
  repeat split; auto.
Qed.

Lemma keeps_pool_do : forall (f : pool -> pool) c,
  keeps members_kept (pool_do f c).
Proof.
  intros f c s a s' tr H. unfold pool_do in H.
  destruct (_scan_thread_pool s); inversion H; subst.
  repeat split; auto.
Qed.

Lemma keeps_build : forall b,
  keeps members_kept (build b : M pool Status).
Proof.
  intros b s a s' tr H. inversion H; subst. repeat split; auto.
Qed.

Lemma keeps_if : forall (A : Type) (b : bool) (m1 m2 : M pool A),
  keeps members_kept m1 -> keeps members_kept m2 ->
  keeps members_kept (if b then m1 else m2).
Proof. intros A [|] m1 m2 H1 H2; assumption. Qed.

Create HintDb frame.

#[local] Hint Resolve keeps_ret keeps_bind keeps_when keeps_load keeps_LOG
  keeps_store_is_stop_true keeps_pool_get keeps_pool_call keeps_pool_do
  keeps_build keeps_if : frame.

Lemma keeps_run_op : forall o,
  keeps members_kept (run_op o : M pool unit).
Proof.
  intros [a b c| |t|a b|n|n| | | |]; cbn [run_op];
    unfold start, stop, submit_scan_task, reset_thread_num,
      reset_max_thread_num, reset_min_thread_num, get_queue_size,
      get_active_threads, get_max_threads, thread_debug_info, discard;
    auto 20 with frame.
Qed.

Lemma keeps_run_ops : forall os,
  keeps members_kept (run_ops os : M pool unit).
Proof.
  induction os as [|o os IH]; cbn [run_ops].
  - apply keeps_ret.
  - apply keeps_bind; [apply keeps_run_op | intros _; exact IH].
Qed.

(** [reset_thread_num] on a scheduler that has a pool, call by call. *)
Lemma reset_thread_num_run :
  forall (s : SimplifiedScanScheduler pool) p new_max new_min,
    _scan_thread_pool s = Some p ->
    reset_thread_num new_max new_min s
    = if (tp_max_threads p =? new_max) && (tp_min_threads p =? new_min)
      then Done tt s []
      else if new_max >=? tp_max_threads p
      then
        let r1 := tp_set_max_threads new_max p in
        let r2 := tp_set_min_threads new_min (snd r1) in
        Done tt (with_pool (Some (snd r2)) s)
          (two_phase_trace
             (SetMaxThreads new_max) r1
             "Failed to set max threads for scan thread pool: "
             (SetMinThreads new_min) r2
             "Failed to set min threads for scan thread pool: ")
      else
        let r1 := tp_set_min_threads new_min p in
        let r2 := tp_set_max_threads new_max (snd r1) in
        Done tt (with_pool (Some (snd r2)) s)
          (two_phase_trace
             (SetMinThreads new_min) r1
             "Failed to set min threads for scan thread pool: "
             (SetMaxThreads new_max) r2
             "Failed to set max threads for scan thread pool: ").
Proof.
  intros [q b c n g l] p new_max new_min Hp. cbn in Hp. subst q.
  run_monad.
  destruct ((tp_max_threads p =? new_max) && (tp_min_threads p =? new_min));
    [reflexivity|].
  unfold two_phase_trace, logged_unless_ok.
  destruct (new_max >=? tp_max_threads p); repeat pool_step; reflexivity.
Qed.

Lemma two_phase_trace_calls :
  forall c1 (r1 : Status * pool) w1 c2 r2 w2,
    pool_calls (two_phase_trace c1 r1 w1 c2 r2 w2) = [c1; c2]
    /\ pool_statuses (two_phase_trace c1 r1 w1 c2 r2 w2) = [fst r1; fst r2]
    /\ pool_states (two_phase_trace c1 r1 w1 c2 r2 w2) = [snd r1; snd r2]
    /\ builds (two_phase_trace c1 r1 w1 c2 r2 w2) = [].
Proof.
  intros c1 [[|? ?] p1] w1 c2 [[|? ?] p2] w2; repeat split.
Qed.

Lemma reset_max_thread_num_run :
  forall (s : SimplifiedScanScheduler pool) p n,
    _scan_thread_pool s = Some p ->
    reset_max_thread_num n s
    = if tp_max_threads p =? n then Done tt s []
      else
        let r := tp_set_max_threads n p in
        Done tt (with_pool (Some (snd r)) s)
          (EvPool (SetMaxThreads n) (Some (fst r)) (snd r)
           :: logged_unless_ok (fst r) INFO
                [text "reset max thread num failed, sche name=";
                 text (_sched_name s)]).
Proof.
  intros [q b c n' g l] p n Hp. cbn in Hp. subst q. run_monad.
  destruct (tp_max_threads p =? n); [reflexivity|].
  unfold logged_unless_ok. cbn. pool_step; reflexivity.
Qed.

Lemma reset_min_thread_num_run :
  forall (s : SimplifiedScanScheduler pool) p n,
    _scan_thread_pool s = Some p ->
    reset_min_thread_num n s
    = if tp_min_threads p =? n then Done tt s []
      else
        let r := tp_set_min_threads n p in
        Done tt (with_pool (Some (snd r)) s)
          (EvPool (SetMinThreads n) (Some (fst r)) (snd r)
           :: logged_unless_ok (fst r) INFO
                [text "reset min thread num failed, sche name=";
                 text (_sched_name s)]).
Proof.
  intros [q b c n' g l] p n Hp. cbn in Hp. subst q. run_monad.
  destruct (tp_min_threads p =? n); [reflexivity|].
  unfold logged_unless_ok. cbn. pool_step; reflexivity.
Qed.

Lemma with_pool_some : forall (s : SimplifiedScanScheduler pool) p,
  _scan_thread_pool s = Some p -> with_pool (Some p) s = s.
Proof. intros [q b c n g l] p H. cbn in H. subst q. reflexivity. Qed.

Lemma with_pool_twice : forall (s : SimplifiedScanScheduler pool) q1 q2,
  with_pool q2 (with_pool q1 s) = with_pool q2 s.
Proof. intros [q b c n g l] q1 q2. reflexivity. Qed.

(** A resize operation only calls the two bound setters, and a pool
    whose setters leave the queue capacity alone keeps it. *)
Lemma resize_keeps_capacity :
  forall (FC : FixedCapacity pool) (s : SimplifiedScanScheduler pool) p o,
    _scan_thread_pool s = Some p ->
    is_resize o = true ->
    exists p' tr,
      run_op o s = Done tt (with_pool (Some p') s) tr
      /\ tp_max_queue_size p' = tp_max_queue_size p
      /\ forallb is_set_call (pool_calls tr) = true
      /\ builds tr = [].
Proof.
  intros FC s p o Hp Ho.
  destruct o; try discriminate Ho; cbn [run_op].
  - rewrite (reset_thread_num_run s p _ _ Hp).
    destruct ((tp_max_threads p =? new_max_thread_num)
              && (tp_min_threads p =? new_min_thread_num)).
    { exists p, []. rewrite (with_pool_some s p Hp). auto. }
    destruct (new_max_thread_num >=? tp_max_threads p); cbv zeta;
      eexists; eexists; (split; [reflexivity|]);
      repeat (rewrite set_min_threads_capacity
              || rewrite set_max_threads_capacity);
      (split; [reflexivity|]);
      match goal with
      | |- context [two_phase_trace ?c1 ?r1 ?w1 ?c2 ?r2 ?w2] =>
          destruct (two_phase_trace_calls c1 r1 w1 c2 r2 w2)
            as (Hc & _ & _ & Hb);
          rewrite Hc, Hb
      end; split; reflexivity.
  - rewrite (reset_max_thread_num_run s p _ Hp).
    destruct (tp_max_threads p =? thread_num).
    { exists p, []. rewrite (with_pool_some s p Hp). auto. }
    cbv zeta. eexists; eexists. split; [reflexivity|].
    rewrite set_max_threads_capacity. split; [reflexivity|].
    destruct (tp_set_max_threads thread_num p) as [[|? ?] ?];
      split; reflexivity.
  - rewrite (reset_min_thread_num_run s p _ Hp).
    destruct (tp_min_threads p =? thread_num).
    { exists p, []. rewrite (with_pool_some s p Hp). auto. }
    cbv zeta. eexists; eexists. split; [reflexivity|].
    rewrite set_min_threads_capacity. split; [reflexivity|].
    destruct (tp_set_min_threads thread_num p) as [[|? ?] ?];
      split; reflexivity.
Qed.

Lemma resizes_keep_capacity :
  forall (FC : FixedCapacity pool) os (s : SimplifiedScanScheduler pool) p,
    _scan_thread_pool s = Some p ->
    forallb is_resize os = true ->
    exists p' tr,
      run_ops os s = Done tt (with_pool (Some p') s) tr
      /\ tp_max_queue_size p' = tp_max_queue_size p
      /\ forallb is_set_call (pool_calls tr) = true
      /\ builds tr = [].
Proof.
  intros FC os. induction os as [|o os IH]; intros s p Hp Hos.
  - exists p, []. cbn. rewrite (with_pool_some s p Hp). auto.
  - cbn in Hos. apply andb_true_iff in Hos as [Ho Hos].
    destruct (resize_keeps_capacity FC s p o Hp Ho)
      as (p1 & t1 & R1 & C1 & S1 & B1).
    destruct (IH (with_pool (Some p1) s) p1 eq_refl Hos)
      as (p2 & t2 & R2 & C2 & S2 & B2).
    exists p2, (t1 ++ t2). cbn [run_ops]. unfold bind.
    rewrite R1, R2, with_pool_twice.
    split; [reflexivity|]. split; [congruence|].
    unfold pool_calls, builds in *.
    rewrite !flat_map_app, forallb_app, S1, S2, B1, B2. auto.
Qed.

(** C1. On a scheduler whose pool has [min <= max], a call
    [reset_thread_num M2 m2] with [m2 <= M2] whose two set calls both
    succeed raises the maximum first and then the minimum when [M2] is
    at least the current maximum, and lowers the minimum first and then
    the maximum otherwise; the pool's bounds are [(M2, m2)] when the call
    returns; and the pool has [min <= max] after each of the two set
    calls, so also between them. *)
Theorem reset_thread_num_two_phase :
  forall (BS : BoundSetters pool) (s s' : SimplifiedScanScheduler pool)
         (p : pool) (M2 m2 : Z) (tr : list (Event pool)),
    _scan_thread_pool s = Some p ->
    tp_min_threads p <= tp_max_threads p ->
    m2 <= M2 ->
    reset_thread_num M2 m2 s = Done tt s' tr ->
    map ok (pool_statuses tr) = [true; true] ->
    pool_calls tr
    = (if M2 >=? tp_max_threads p
       then [SetMaxThreads M2; SetMinThreads m2]
       else [SetMinThreads m2; SetMaxThreads M2])
    /\ (exists p', _scan_thread_pool s' = Some p'
                   /\ tp_max_threads p' = M2 /\ tp_min_threads p' = m2)
    /\ (exists p1 p2, pool_states tr = [p1; p2]
                      /\ tp_min_threads p1 <= tp_max_threads p1
                      /\ tp_min_threads p2 <= tp_max_threads p2).
Proof.
  intros BS s s' p M2 m2 tr Hp Hinv Hle Hrun Hok.
  rewrite (reset_thread_num_run s p M2 m2 Hp) in Hrun.
  destruct ((tp_max_threads p =? M2) && (tp_min_threads p =? m2)).
  { inversion Hrun; subst. discriminate Hok. }
  destruct (M2 >=? tp_max_threads p) eqn:Hgrow; cbv zeta in Hrun;
    inversion Hrun; subst; clear Hrun;
    match goal with
    | |- context [two_phase_trace ?c1 ?r1 ?w1 ?c2 ?r2 ?w2] =>
        destruct (two_phase_trace_calls c1 r1 w1 c2 r2 w2)
          as (Hc & Hs & Hq & _);
        rewrite Hc, Hq; rewrite Hs in Hok
    end;
    cbn [map] in Hok; injection Hok as Hok1 Hok2.
  - rewrite Z.geb_leb in Hgrow. apply Z.leb_le in Hgrow.
    destruct (set_max_threads_ok M2 p Hok1) as [A1 A2].
    destruct (set_min_threads_ok m2 _ Hok2) as [B1 B2].
    split; [reflexivity|]. split.
    + eexists; cbn; repeat split; congruence.
    + do 2 eexists; repeat split; lia.
  - rewrite Z.geb_leb in Hgrow. apply Z.leb_gt in Hgrow.
    destruct (set_min_threads_ok m2 p Hok1) as [A1 A2].
    destruct (set_max_threads_ok M2 _ Hok2) as [B1 B2].
    split; [reflexivity|]. split.
    + eexists; cbn; repeat split; congruence.
    + do 2 eexists; repeat split; lia.
Qed.

(** C7. [reset_thread_num M m] with [M] the current maximum and [m] the
    current minimum makes no call on the pool and leaves the scheduler,
    its pool included, as it was; so do [reset_max_thread_num n] and
    [reset_min_thread_num n] with [n] the current bound. *)
Theorem reset_unchanged_is_noop :
  forall (s : SimplifiedScanScheduler pool) (p : pool),
    _scan_thread_pool s = Some p ->
    reset_thread_num (tp_max_threads p) (tp_min_threads p) s = Done tt s []
    /\ reset_max_thread_num (tp_max_threads p) s = Done tt s []
    /\ reset_min_thread_num (tp_min_threads p) s = Done tt s [].
Proof.
  intros s p Hp. split; [|split].
  - rewrite (reset_thread_num_run s p _ _ Hp), !Z.eqb_refl. reflexivity.
  - destruct s as [q b c n g l]. cbn in Hp. subst q. run_monad.
    rewrite Z.eqb_refl. reflexivity.
  - destruct s as [q b c n g l]. cbn in Hp. subst q. run_monad.
    rewrite Z.eqb_refl. reflexivity.
Qed.

(** C5. On a scheduler that has a pool, [reset_thread_num],
    [reset_max_thread_num] and [reset_min_thread_num] return (their
    result is [void]) whatever statuses the pool's setters answer; the
    scheduler's members other than the pool are as before; and the trace
    holds one log line for each set call that failed. *)
Theorem resize_failures_are_only_logged :
  forall (s : SimplifiedScanScheduler pool) (p : pool),
    _scan_thread_pool s = Some p ->
    forall o, is_resize o = true ->
      exists p' tr,
        run_op o s = Done tt (with_pool (Some p') s) tr
        /\ List.length (log_lines tr)
           = List.length (filter (fun st => negb (ok st)) (pool_statuses tr)).
Proof.
  intros s p Hp o Ho.
  destruct o; try discriminate Ho; cbn [run_op].
  - destruct (reset_thread_num_returns s p new_max_thread_num
                new_min_thread_num Hp) as (p' & tr & H1 & _ & H3).
    exists p', tr. auto.
  - destruct (reset_max_thread_num_returns s p thread_num Hp)
      as (p' & tr & H1 & _ & H3).
    exists p', tr. auto.
  - destruct (reset_min_thread_num_returns s p thread_num Hp)
      as (p' & tr & H1 & _ & H3).
    exists p', tr. auto.
Qed.

(** C9. On a scheduler whose [_scan_thread_pool] is empty, as the
    constructor leaves it, [stop], every resize operation and every
    introspection operation dereference the empty pointer, and so does
    [submit_scan_task] when [_is_stop] is not set: its guard only turns
    away a stopped scheduler. *)
Theorem unstarted_scheduler_dereferences_null :
  forall (s : SimplifiedScanScheduler pool),
    _scan_thread_pool s = None ->
    (_is_stop s = false ->
     forall scan_task, submit_scan_task scan_task s = NullDeref)
    /\ stop s = NullDeref
    /\ (forall new_max new_min, reset_thread_num new_max new_min s = NullDeref)
    /\ (forall n, reset_max_thread_num n s = NullDeref)
    /\ (forall n, reset_min_thread_num n s = NullDeref)
    /\ get_queue_size s = NullDeref
    /\ get_active_threads s = NullDeref
    /\ get_max_threads s = NullDeref
    /\ thread_debug_info s = NullDeref.
Proof.
  intros [q b c n g l] Hp. cbn in Hp. subst q.
  repeat split; try (intros; reflexivity).
  cbn. intros Hb scan_task. subst b. reflexivity.
Qed.

Lemma stop_sets_is_stop :
  forall (s s1 : SimplifiedScanScheduler pool) tr,
    stop s = Done tt s1 tr ->
    _is_stop s1 = true /\ _sched_name s1 = _sched_name s.
Proof.
  intros [[p|] b c n g l] s1 tr H; [|discriminate H].
  inversion H; subst. split; reflexivity.
Qed.

(** C2. Once [stop] has returned, and whatever calls of the header's own
    member functions follow it, [submit_scan_task] returns the internal
    error that names the pool, makes no call on the pool (so the task's
    closure is never handed to it) and leaves the scheduler as it was. *)
Theorem submit_after_stop_is_rejected :
  forall (s s1 s2 : SimplifiedScanScheduler pool) tr1 tr2 os scan_task,
    stop s = Done tt s1 tr1 ->
    run_ops os s1 = Done tt s2 tr2 ->
    submit_scan_task scan_task s2
    = Done (InternalError "scanner pool " (_sched_name s) " is shutdown.")
           s2 [].
Proof.
  intros s s1 s2 tr1 tr2 os scan_task Hstop Hrun.
  destruct (stop_sets_is_stop _ _ _ Hstop) as [Hb Hn].
  destruct (keeps_run_ops os _ _ _ _ Hrun) as (Kn & _ & _ & _ & Kb & _).
  specialize (Kb Hb). rewrite <- Hn, <- Kn.
  destruct s2 as [q b c n g l]. cbn in Kb. subst b. reflexivity.
Qed.

(** C6. When [start M m q] has succeeded the pool's queue capacity is
    [q]; any sequence of resize operations after it returns, calls
    nothing on the pool but the two bound setters, builds no pool, and
    leaves the capacity [q] and every member of the scheduler but the
    pool as they were. *)
Theorem resize_leaves_queue_capacity :
  forall (FC : FixedCapacity pool) (s s1 : SimplifiedScanScheduler pool)
         tr1 (max_thread_num min_thread_num queue_size : Z),
    start max_thread_num min_thread_num queue_size s = Done OK s1 tr1 ->
    exists p1,
      _scan_thread_pool s1 = Some p1
      /\ tp_max_queue_size p1 = queue_size
      /\ forall os, forallb is_resize os = true ->
           exists p2 tr2,
             run_ops os s1 = Done tt (with_pool (Some p2) s1) tr2
             /\ tp_max_queue_size p2 = queue_size
             /\ forallb is_set_call (pool_calls tr2) = true
             /\ builds tr2 = [].
Proof.
  intros FC [q b c n g l] s1 tr1 M m qs H.
  revert H. run_monad.
  match goal with
  | |- context [tp_build ?B q] =>
      pose proof (build_capacity B q qs eq_refl) as HB;
      destruct (tp_build B q) as [st new]
  end.
  cbn in HB |- *. destruct st; cbn; intros H; inversion H; subst.
  destruct (HB eq_refl) as (p1 & -> & Hcap).
  exists p1. split; [reflexivity|]. split; [exact Hcap|].
  intros os Hos.
  match goal with
  | |- context [run_ops os ?s1] =>
      destruct (resizes_keep_capacity FC os s1 p1 eq_refl Hos)
        as (p2 & tr2 & R & C & S & B)
  end.
  exists p2, tr2. rewrite R. repeat split; auto. congruence.
Qed.

(** C10. [reset_thread_num] does not compare its two arguments: on a
    scheduler whose pool has [min <= max], a call with
    [new_min > new_max] returns after both set calls, the maximum first
    when [new_max] is at least the current maximum and the minimum first
    otherwise; and when the pool's setters behave as setters and accept
    both calls, the pool is left with [min > max]. *)
Theorem reset_thread_num_does_not_validate :
  forall (s : SimplifiedScanScheduler pool) (p : pool)
         (new_max new_min : Z),
    _scan_thread_pool s = Some p ->
    tp_min_threads p <= tp_max_threads p ->
    new_min > new_max ->
    exists p' tr,
      reset_thread_num new_max new_min s = Done tt (with_pool (Some p') s) tr
      /\ pool_calls tr
         = (if new_max >=? tp_max_threads p
            then [SetMaxThreads new_max; SetMinThreads new_min]
            else [SetMinThreads new_min; SetMaxThreads new_max])
      /\ (BoundSetters pool ->
          map ok (pool_statuses tr) = [true; true] ->
          tp_min_threads p' > tp_max_threads p').
Proof.
  intros s p new_max new_min Hp Hinv Hgt.
  rewrite (reset_thread_num_run s p _ _ Hp).
  destruct ((tp_max_threads p =? new_max) && (tp_min_threads p =? new_min))
    eqn:Hsame.
  { apply andb_true_iff in Hsame as [H1 H2].
    apply Z.eqb_eq in H1, H2. lia. }
  destruct (new_max >=? tp_max_threads p); cbv zeta;
    eexists; eexists; (split; [reflexivity|]);
    match goal with
    | |- context [two_phase_trace ?c1 ?r1 ?w1 ?c2 ?r2 ?w2] =>
        destruct (two_phase_trace_calls c1 r1 w1 c2 r2 w2)
          as (Hc & Hs & _ & _);
        rewrite Hc, Hs
    end;
    (split; [reflexivity|]); intros BS Hok; cbn [map] in Hok;
    injection Hok as Hok1 Hok2.
  - destruct (set_max_threads_ok new_max p Hok1) as [A1 A2].
    destruct (set_min_threads_ok new_min _ Hok2) as [B1 B2]. lia.
  - destruct (set_min_threads_ok new_min p Hok1) as [A1 A2].
    destruct (set_max_threads_ok new_max _ Hok2) as [B1 B2]. lia.
Qed.

Lemma held_closure_keeps_alive :
  forall (s : SimplifiedScanScheduler pool) cl c external,
    In cl (pool_closures s) -> closure_owns cl c -> alive c external s.
Proof.
  intros s cl c external Hin Hown. unfold alive, use_count.
  assert (In cl (filter (fun cl => holds c (scanner_context
                                             (captured_scan_task cl)))
                   (pool_closures s))) as Hf.
  { apply filter_In. split; [exact Hin|].
    unfold closure_owns in Hown. rewrite Hown. cbn. apply Nat.eqb_refl. }
  destruct (filter _ (pool_closures s)); [destruct Hf|]. cbn. lia.
Qed.

(** C4. When [submit_scan_task] admits a task that refers to a context,
    the one thing it does is hand the pool a closure that holds a copy
    of the task, and with it an owning reference to the context: the
    context is alive with no reference left outside, and stays alive in
    every later state in which the pool still holds the closure. The
    scheduler object changes in its pool only; none of its own members
    refers to the context. *)
Theorem queued_closure_keeps_context_alive :
  forall (HA : HoldsAdmitted pool) (s s' : SimplifiedScanScheduler pool)
         (scan_task : SimplifiedScanTask) (c : ScannerContext)
         (st : Status) (tr : list (Event pool)),
    scanner_context scan_task = Some c ->
    submit_scan_task scan_task s = Done st s' tr ->
    ok st = true ->
    exists p',
      s' = with_pool (Some p') s
      /\ tr = [EvPool (SubmitFunc (mkClosure scan_task)) (Some st) p']
      /\ scanner_context (captured_scan_task (mkClosure scan_task)) = Some c
      /\ In (mkClosure scan_task) (tp_closures p')
      /\ alive c [] s'
      /\ forall s'' external,
           In (mkClosure scan_task) (pool_closures s'') ->
           alive c external s''.
Proof.
  intros HA [[p|] b c0 n g l] s' scan_task c st tr Hc Hrun Hok;
    revert Hrun; run_monad; destruct b; cbn; try discriminate;
    intros Hrun; inversion Hrun; subst; try discriminate Hok.
  pose proof (submit_func_holds (mkClosure scan_task) p Hok) as Hin.
  exists (snd (tp_submit_func (mkClosure scan_task) p)).
  repeat split; auto.
  - apply held_closure_keeps_alive with (cl := mkClosure scan_task);
      [exact Hin | exact Hc].
  - intros s'' external Hin''.
    apply held_closure_keeps_alive with (cl := mkClosure scan_task);
      [exact Hin'' | exact Hc].
Qed.

Lemma unlocked_calls_are_unguarded :
  forall tr : list (Event pool),
    existsb is_lock_event tr = false ->
    guarded false tr = true ->
    pool_calls tr = [] /\ builds tr = [].
Proof.
  induction tr as [|e tr IH]; intros Hl Hg; [split; reflexivity|].
  destruct e; cbn in Hl, Hg |- *; try discriminate.
  apply IH; assumption.
Qed.

(** C8. No reconfiguration operation takes the scheduler's own lock:
    [start], [stop] and the resize operations leave [_lock] as it was and
    neither acquire nor release it, so a call that reaches the pool or
    builds one does so outside any critical section of [_lock]. *)
Theorem reconfiguration_takes_no_lock :
  forall (o : Op) (s s' : SimplifiedScanScheduler pool)
         (tr : list (Event pool)),
    is_reconfiguration o = true ->
    run_op o s = Done tt s' tr ->
    _lock s' = _lock s
    /\ existsb is_lock_event tr = false
    /\ (guarded false tr = true -> pool_calls tr = [] /\ builds tr = []).
Proof.
  intros o s s' tr _ Hrun.
  destruct (keeps_run_op o _ _ _ _ Hrun) as (_ & _ & _ & Kl & _ & Ke).
  split; [exact Kl|]. split; [exact Ke|].
  apply unlocked_calls_are_unguarded. exact Ke.
Qed.

End Properties.

(** ** The coordinator *)

Section CoordinatorProperties.

Variable execution_path :
  shared_ptr ScannerContext -> ScannerScheduler.ScanTask ->
  Status * ScannerScheduler.ScanTask.
Variable default_thread_num : Z -> Z.

Lemma closed_stays_closed :
  forall cs s s',
    ScannerScheduler._is_closed s = true ->
    ScannerScheduler.after_calls execution_path default_thread_num cs s
    = Some s' ->
    ScannerScheduler._is_closed s' = true.
Proof.
  induction cs as [|c cs IH]; intros s s' Hc H; cbn in H.
  - inversion H; subst. exact Hc.
  - destruct (ScannerScheduler.after_call execution_path default_thread_num
                c s) as [s1|] eqn:E; [|discriminate].
    apply (IH s1 s'); [|exact H].
    destruct c as [h b|ctx t|]; cbn in E.
    + destruct b; inversion E; subst; exact Hc.
    + unfold ScannerScheduler.submit in E. rewrite Hc in E.
      inversion E; subst. exact Hc.
    + inversion E; subst. reflexivity.
Qed.

(** C3. After [stop], and whatever calls that return follow it, [submit]
    returns a rejection error, it does not throw, and it hands the task
    back as it was. *)
Theorem submit_after_close_is_rejected :
  forall (s s' : ScannerScheduler.t) (cs : list ScannerScheduler.Call)
         (ctx : shared_ptr ScannerContext)
         (scan_task : ScannerScheduler.ScanTask),
    ScannerScheduler.after_calls execution_path default_thread_num cs
      (fst (ScannerScheduler.stop s)) = Some s' ->
    exists msg,
      ScannerScheduler.submit execution_path ctx scan_task s'
      = ScannerScheduler.Returns (Error SUBMISSION_REJECTED msg, scan_task).
Proof.
  intros s s' cs ctx scan_task H.
  apply closed_stays_closed in H; [|reflexivity].
  unfold ScannerScheduler.submit. rewrite H. eexists. reflexivity.
Qed.

End CoordinatorProperties.

(** ** The properties on concrete schedulers *)

Lemma SpecPool_bound_setters :
  forall checked, @BoundSetters SpecPool.t (SpecPool.ops checked).
Proof.
  intros checked. split; intros n p; cbn;
    unfold SpecPool.set_max_threads, SpecPool.set_min_threads;
    match goal with |- context [if ?b then _ else _] => destruct b end;
    cbn; intros H; try discriminate H; split; reflexivity.
Qed.

Lemma SpecPool_fixed_capacity :
  forall checked, @FixedCapacity SpecPool.t (SpecPool.ops checked).
Proof.
  intros checked. split.
  - intros b old q Hq. cbn. unfold SpecPool.build. rewrite Hq.
    destruct (b_min_threads b) as [m|]; [|discriminate].
    destruct (b_max_threads b) as [M|]; [|discriminate].
    destruct ((0 <=? m) && (m <=? M) && (0 <? M) && (0 <=? q));
      [|discriminate].
    intros _. eexists. split; reflexivity.
  - intros n p. cbn. unfold SpecPool.set_min_threads.
    destruct (checked && (n >? SpecPool.max_threads p)); reflexivity.
  - intros n p. cbn. unfold SpecPool.set_max_threads.
    destruct (checked && (SpecPool.min_threads p >? n)); reflexivity.
Qed.

Lemma SpecPool_holds_admitted :
  forall checked, @HoldsAdmitted SpecPool.t (SpecPool.ops checked).
Proof.
  intros checked. split. intros cl p. cbn. unfold SpecPool.submit_func.
  destruct (SpecPool.is_shutdown p); [discriminate|].
  destruct (Z.of_nat (List.length (SpecPool.queue p))
            >=? SpecPool.max_queue_size p); [discriminate|].
  intros _. cbn. apply in_or_app. right. apply in_or_app. right.
  left. reflexivity.
Qed.

(** C1 on the running scheduler: shrinking from [(8, 1)] to [(4, 2)]. *)
Lemma reset_thread_num_two_phase_witness :
  exists s' tr,
    reset_thread_num (TP := SpecPool.checked) 4 2 Examples.running
    = Done tt s' tr
    /\ pool_calls tr = [SetMinThreads 2; SetMaxThreads 4]
    /\ (exists p', _scan_thread_pool s' = Some p'
                   /\ SpecPool.max_threads p' = 4
                   /\ SpecPool.min_threads p' = 2)
    /\ (exists p1 p2, pool_states tr = [p1; p2]
                      /\ SpecPool.min_threads p1 <= SpecPool.max_threads p1
                      /\ SpecPool.min_threads p2 <= SpecPool.max_threads p2).
Proof.
  eexists. eexists. split; [reflexivity|].
  apply (reset_thread_num_two_phase (TP := SpecPool.checked)
           (SpecPool_bound_setters true) Examples.running _
           (SpecPool.mk 1 8 2 [] [] false) 4 2 _).
  - reflexivity.
  - cbn. lia.
  - lia.
  - reflexivity.
  - reflexivity.
Defined.

(** C2 on the running scheduler: stopped, restarted, resized, and then
    given a task. *)
Lemma submit_after_stop_is_rejected_witness :
  exists s2,
    submit_scan_task (TP := SpecPool.checked) Examples.task7 s2
    = Done (Error INTERNAL_ERROR "scanner pool scan is shutdown.") s2 []
    /\ _is_stop s2 = true.
Proof.
  eexists. split.
  - eapply (submit_after_stop_is_rejected (TP := SpecPool.checked)
              Examples.running) with
      (os := [OpStart 4 1 2; OpResetThreadNum 3 1;
              OpSubmitScanTask Examples.task7]); reflexivity.
  - reflexivity.
Defined.

(** C3 on a coordinator that is stopped and then asked three times. *)
Lemma submit_after_close_is_rejected_witness :
  exists msg,
    ScannerScheduler.submit Examples.run_at_once (Some 7%nat)
      Examples.pending_task (ScannerScheduler.mk true true 48)
    = ScannerScheduler.Returns
        (Error SUBMISSION_REJECTED msg, Examples.pending_task).
Proof.
  apply (submit_after_close_is_rejected Examples.run_at_once
           (fun cores => cores * 2)
           (ScannerScheduler.new 0) (ScannerScheduler.mk true true 48)
           [ScannerScheduler.CallSubmit (Some 7%nat) Examples.pending_task;
            ScannerScheduler.CallInit 24 true;
            ScannerScheduler.CallStop]).
  reflexivity.
Defined.

(** C4 on the running scheduler and a task of context 7. *)
Lemma queued_closure_keeps_context_alive_witness :
  exists s' tr,
    submit_scan_task (TP := SpecPool.checked) Examples.task7
      Examples.running = Done OK s' tr
    /\ (exists p', s' = with_pool (Some p') Examples.running
                   /\ In (mkClosure Examples.task7) (SpecPool.queue p'))
    /\ alive (TP := SpecPool.checked) 7%nat [] s'.
Proof.
  eexists. eexists. split; [reflexivity|].
  destruct (queued_closure_keeps_context_alive (TP := SpecPool.checked)
              (SpecPool_holds_admitted true) Examples.running _
              Examples.task7 7%nat OK _ eq_refl eq_refl eq_refl)
    as (p' & Hs & _ & _ & _ & Ha & _).
  split; [|exact Ha].
  eexists. split; [reflexivity|]. left. reflexivity.
Defined.

(** C5 on the running scheduler: the pool refuses the second set call of
    [reset_thread_num 2 5], and the call returns with the refusal logged. *)
Lemma resize_failures_are_only_logged_witness :
  exists p' tr,
    run_op (TP := SpecPool.checked) (OpResetThreadNum 2 5) Examples.running
    = Done tt (with_pool (Some p') Examples.running) tr
    /\ List.length (log_lines tr)
       = List.length (filter (fun st => negb (ok st)) (pool_statuses tr)).
Proof.
  apply (resize_failures_are_only_logged (TP := SpecPool.checked)
           Examples.running (SpecPool.mk 1 8 2 [] [] false) eq_refl
           (OpResetThreadNum 2 5) eq_refl).
Defined.

(** C6 on the constructed scheduler: started with a queue of 2, then
    resized three times. *)
Lemma resize_leaves_queue_capacity_witness :
  exists p2 tr2,
    run_ops (TP := SpecPool.checked)
      [OpResetThreadNum 16 4; OpResetMaxThreadNum 6; OpResetMinThreadNum 3]
      Examples.running
    = Done tt (with_pool (Some p2) Examples.running) tr2
    /\ SpecPool.max_queue_size p2 = 2.
Proof.
  pose proof (fun tr1 =>
                resize_leaves_queue_capacity (TP := SpecPool.checked)
                  (SpecPool_fixed_capacity true) Examples.constructed
                  Examples.running tr1 8 1 2) as T.
  edestruct T as (p1 & _ & _ & H); [reflexivity|].
  destruct (H [OpResetThreadNum 16 4; OpResetMaxThreadNum 6;
               OpResetMinThreadNum 3] eq_refl)
    as (p2 & tr2 & R & C & _).
  exists p2, tr2. split; [exact R|exact C].
Defined.

(** C7 on the running scheduler, whose bounds are [(8, 1)]. *)
Lemma reset_unchanged_is_noop_witness :
  reset_thread_num (TP := SpecPool.checked) 8 1 Examples.running
  = Done tt Examples.running []
  /\ reset_max_thread_num (TP := SpecPool.checked) 8 Examples.running
     = Done tt Examples.running []
  /\ reset_min_thread_num (TP := SpecPool.checked) 1 Examples.running
     = Done tt Examples.running [].
Proof.
  apply (reset_unchanged_is_noop (TP := SpecPool.checked) Examples.running
           (SpecPool.mk 1 8 2 [] [] false) eq_refl).
Defined.

(** C8 on the running scheduler: [reset_thread_num 4 2] reaches the pool
    twice and never touches [_lock]. *)
Lemma reconfiguration_takes_no_lock_witness :
  exists s' tr,
    run_op (TP := SpecPool.checked) (OpResetThreadNum 4 2) Examples.running
    = Done tt s' tr
    /\ _lock s' = unlocked
    /\ existsb is_lock_event tr = false.
Proof.
  eexists. eexists. split; [reflexivity|].
  destruct (reconfiguration_takes_no_lock (TP := SpecPool.checked)
              (OpResetThreadNum 4 2) Examples.running _ _ eq_refl eq_refl)
    as (Hl & He & _).
  split; [exact Hl|exact He].
Defined.

(** C8 as it is stated fails: on the running scheduler the two set calls
    of [reset_thread_num 4 2] are made outside any critical section of
    [_lock]. *)
Lemma reset_thread_num_outside_critical_section :
  exists s' tr,
    run_op (TP := SpecPool.checked) (OpResetThreadNum 4 2) Examples.running
    = Done tt s' tr
    /\ is_reconfiguration (OpResetThreadNum 4 2) = true
    /\ pool_calls tr = [SetMinThreads 2; SetMaxThreads 4]
    /\ guarded false tr = false.
Proof.
  eexists. eexists. split; [reflexivity|]. repeat split.
Qed.

(** C9 on the scheduler as the constructor leaves it. *)
Lemma unstarted_scheduler_dereferences_null_witness :
  submit_scan_task (TP := SpecPool.checked) Examples.task7
    Examples.constructed = NullDeref
  /\ stop (TP := SpecPool.checked) Examples.constructed = NullDeref
  /\ reset_thread_num (TP := SpecPool.checked) 8 1 Examples.constructed
     = NullDeref
  /\ get_queue_size (TP := SpecPool.checked) Examples.constructed
     = NullDeref.
Proof.
  destruct (unstarted_scheduler_dereferences_null (TP := SpecPool.checked)
              Examples.constructed eq_refl)
    as (H1 & H2 & H3 & _ & _ & H6 & _).
  split; [apply H1; reflexivity|]. split; [exact H2|].
  split; [apply H3 | exact H6].
Defined.

(** C10 on the running scheduler over a pool that takes any bound:
    [reset_thread_num 2 5] makes both set calls and leaves [min 5] above
    [max 2]. *)
Lemma reset_thread_num_does_not_validate_witness :
  exists p' tr,
    reset_thread_num (TP := SpecPool.unchecked) 2 5 Examples.running
    = Done tt (with_pool (Some p') Examples.running) tr
    /\ pool_calls tr = [SetMinThreads 5; SetMaxThreads 2]
    /\ SpecPool.min_threads p' > SpecPool.max_threads p'.
Proof.
  destruct (reset_thread_num_does_not_validate (TP := SpecPool.unchecked)
              Examples.running (SpecPool.mk 1 8 2 [] [] false) 2 5
              eq_refl ltac:(cbn; lia) ltac:(lia))
    as (p' & tr & R & C & V).
  exists p', tr. split; [exact R|]. split; [exact C|].
  apply V; [apply SpecPool_bound_setters|].
  cbn in R. inversion R. reflexivity.
Defined.

(** * Further properties of the header's member functions *)

Section MoreProperties.

Context {pool : Type} {TP : ThreadPool pool}.

Lemma two_phase_trace_quiet :
  forall c1 (r1 : Status * pool) w1 c2 (r2 : Status * pool) w2,
    ok (fst r1) = true -> ok (fst r2) = true ->
    log_lines (two_phase_trace c1 r1 w1 c2 r2 w2) = [].
Proof.
  intros c1 r1 w1 c2 r2 w2 H1 H2.
  unfold two_phase_trace, logged_unless_ok. rewrite H1, H2. reflexivity.
Qed.

(** X1. On a pool whose setters take every bound that keeps [min <= max]
    and set what they take, [reset_thread_num M2 m2] with [m2 <= M2]
    never fails: every set call it makes succeeds, nothing is logged,
    the bounds end as [(M2, m2)], and the pool has [min <= max] after
    each call. The order of the two phases is what makes each call
    acceptable to such a pool. *)
Theorem reset_thread_num_accepted_by_validating_pool :
  forall (BS : BoundSetters pool) (AV : AcceptsValidBounds pool)
         (s : SimplifiedScanScheduler pool) (p : pool) (M2 m2 : Z),
    _scan_thread_pool s = Some p ->
    tp_min_threads p <= tp_max_threads p ->
    m2 <= M2 ->
    exists p' tr,
      reset_thread_num M2 m2 s = Done tt (with_pool (Some p') s) tr
      /\ forallb ok (pool_statuses tr) = true
      /\ log_lines tr = []
      /\ tp_max_threads p' = M2
      /\ tp_min_threads p' = m2
      /\ Forall (fun q => tp_min_threads q <= tp_max_threads q)
                (pool_states tr).
Proof.
  intros BS AV s p M2 m2 Hp Hinv Hle.
  rewrite (reset_thread_num_run s p M2 m2 Hp).
  destruct ((tp_max_threads p =? M2) && (tp_min_threads p =? m2)) eqn:Hsame.
  { apply andb_true_iff in Hsame as [H1 H2]. apply Z.eqb_eq in H1, H2.
    exists p, []. rewrite (with_pool_some s p Hp).
    repeat split; auto. }
  destruct (M2 >=? tp_max_threads p) eqn:Hgrow; cbv zeta;
    rewrite Z.geb_leb in Hgrow.
  - apply Z.leb_le in Hgrow.
    assert (ok (fst (tp_set_max_threads M2 p)) = true) as O1
      by (apply set_max_threads_accepts; lia).
    destruct (set_max_threads_ok M2 p O1) as [A1 A2].
    assert (ok (fst (tp_set_min_threads m2 (snd (tp_set_max_threads M2 p))))
            = true) as O2
      by (apply set_min_threads_accepts; lia).
    destruct (set_min_threads_ok m2 _ O2) as [B1 B2].
    eexists. eexists. split; [reflexivity|].
    match goal with
    | |- context [two_phase_trace ?c1 ?r1 ?w1 ?c2 ?r2 ?w2] =>
        destruct (two_phase_trace_calls c1 r1 w1 c2 r2 w2)
          as (_ & Hs & Hq & _);
        rewrite Hs, Hq, (two_phase_trace_quiet c1 r1 w1 c2 r2 w2 O1 O2)
    end.
    cbn [forallb]. rewrite O1, O2.
    repeat split; try congruence.
    repeat constructor; lia.
  - apply Z.leb_gt in Hgrow.
    assert (ok (fst (tp_set_min_threads m2 p)) = true) as O1
      by (apply set_min_threads_accepts; lia).
    destruct (set_min_threads_ok m2 p O1) as [A1 A2].
    assert (ok (fst (tp_set_max_threads M2 (snd (tp_set_min_threads m2 p))))
            = true) as O2
      by (apply set_max_threads_accepts; lia).
    destruct (set_max_threads_ok M2 _ O2) as [B1 B2].
    eexists. eexists. split; [reflexivity|].
    match goal with
    | |- context [two_phase_trace ?c1 ?r1 ?w1 ?c2 ?r2 ?w2] =>
        destruct (two_phase_trace_calls c1 r1 w1 c2 r2 w2)
          as (_ & Hs & Hq & _);
        rewrite Hs, Hq, (two_phase_trace_quiet c1 r1 w1 c2 r2 w2 O1 O2)
    end.
    cbn [forallb]. rewrite O1, O2.
    repeat split; try congruence.
    repeat constructor; lia.
Qed.

(** X2. [reset_thread_num] is idempotent when it succeeds: after a call
    whose set calls all succeeded, the same call again finds the bounds
    in place, makes no call on the pool and changes nothing. *)
Theorem reset_thread_num_twice :
  forall (BS : BoundSetters pool) (s s1 : SimplifiedScanScheduler pool)
         (p : pool) (M2 m2 : Z) (tr1 : list (Event pool)),
    _scan_thread_pool s = Some p ->
    reset_thread_num M2 m2 s = Done tt s1 tr1 ->
    forallb ok (pool_statuses tr1) = true ->
    reset_thread_num M2 m2 s1 = Done tt s1 [].
Proof.
  intros BS s s1 p M2 m2 tr1 Hp Hrun Hok.
  pose proof Hrun as Hrun0.
  rewrite (reset_thread_num_run s p M2 m2 Hp) in Hrun.
  destruct ((tp_max_threads p =? M2) && (tp_min_threads p =? m2)) eqn:Hsame.
  { inversion Hrun; subst. exact Hrun0. }
  assert (forall q : pool,
             tp_max_threads q = M2 -> tp_min_threads q = m2 ->
             reset_thread_num M2 m2 (with_pool (Some q) s)
             = Done tt (with_pool (Some q) s) []) as Hdone.
  { intros q HM Hm.
    rewrite (reset_thread_num_run (with_pool (Some q) s) q M2 m2 eq_refl).
    rewrite HM, Hm, !Z.eqb_refl. reflexivity. }
  destruct (M2 >=? tp_max_threads p); cbv zeta in Hrun;
    inversion Hrun; subst; clear Hrun;
    match goal with
    | H : context [two_phase_trace ?c1 ?r1 ?w1 ?c2 ?r2 ?w2] |- _ =>
        destruct (two_phase_trace_calls c1 r1 w1 c2 r2 w2)
          as (_ & Hs & _ & _);
        rewrite Hs in Hok; cbn [forallb] in Hok;
        apply andb_true_iff in Hok as [O1 O2];
        apply andb_true_iff in O2 as [O2 _];
        apply Hdone
    end.
  - destruct (set_max_threads_ok M2 p O1) as [A1 A2].
    destruct (set_min_threads_ok m2 _ O2) as [B1 B2]. congruence.
  - destruct (set_max_threads_ok M2 p O1) as [A1 A2].
    destruct (set_min_threads_ok m2 _ O2) as [B1 B2]. congruence.
  - destruct (set_min_threads_ok m2 p O1) as [A1 A2].
    destruct (set_max_threads_ok M2 _ O2) as [B1 B2]. congruence.
  - destruct (set_min_threads_ok m2 p O1) as [A1 A2].
    destruct (set_max_threads_ok M2 _ O2) as [B1 B2]. congruence.
Qed.

Lemma op_keeps_pool :
  forall (o : Op) (s : SimplifiedScanScheduler pool) (p : pool),
    _scan_thread_pool s = Some p ->
    is_start o = false ->
    exists s1 tr p1,
      run_op o s = Done tt s1 tr /\ _scan_thread_pool s1 = Some p1.
Proof.
  intros o s p Hp Ho.
  destruct o; try discriminate Ho; cbn [run_op].
  - destruct s as [q b c n g l]. cbn in Hp. subst q.
    do 3 eexists. split; reflexivity.
  - destruct s as [q b c n g l]. cbn in Hp. subst q.
    destruct b; do 3 eexists; split; reflexivity.
  - destruct (reset_thread_num_returns s p new_max_thread_num
                new_min_thread_num Hp) as (p' & tr & R & _).
    exists (with_pool (Some p') s), tr, p'. split; [exact R|reflexivity].
  - destruct (reset_max_thread_num_returns s p thread_num Hp)
      as (p' & tr & R & _).
    exists (with_pool (Some p') s), tr, p'. split; [exact R|reflexivity].
  - destruct (reset_min_thread_num_returns s p thread_num Hp)
      as (p' & tr & R & _).
    exists (with_pool (Some p') s), tr, p'. split; [exact R|reflexivity].
  - destruct s as [q b c n g l]. cbn in Hp. subst q.
    do 3 eexists. split; reflexivity.
  - destruct s as [q b c n g l]. cbn in Hp. subst q.
    do 3 eexists. split; reflexivity.
  - destruct s as [q b c n g l]. cbn in Hp. subst q.
    do 3 eexists. split; reflexivity.
  - destruct s as [q b c n g l]. cbn in Hp. subst q.
    do 3 eexists. split; reflexivity.
Qed.

(** X3. Once the scheduler has a pool, no sequence of calls other than
    [start] ever dereferences an empty pointer: every call of the
    sequence returns, whatever the pool answers, and the scheduler still
    has a pool at the end. *)
Theorem started_scheduler_never_faults :
  forall (os : list Op) (s : SimplifiedScanScheduler pool) (p : pool),
    _scan_thread_pool s = Some p ->
    existsb is_start os = false ->
    exists s' tr p',
      run_ops os s = Done tt s' tr /\ _scan_thread_pool s' = Some p'.
Proof.
  induction os as [|o os IH]; intros s p Hp Hos.
  - exists s, [], p. split; [reflexivity|exact Hp].
  - cbn in Hos. apply orb_false_iff in Hos as [Ho Hos].
    destruct (op_keeps_pool o s p Hp Ho) as (s1 & t1 & p1 & R1 & P1).
    destruct (IH s1 p1 P1 Hos) as (s2 & t2 & p2 & R2 & P2).
    exists s2, (t1 ++ t2), p2. cbn [run_ops]. unfold bind.
    rewrite R1, R2. split; [reflexivity|exact P2].
Qed.

Lemma resize_keeps_setter_invariant :
  forall (P : pool -> Prop),
    (forall n p, P p -> P (snd (tp_set_min_threads n p))) ->
    (forall n p, P p -> P (snd (tp_set_max_threads n p))) ->
    forall (o : Op) (s : SimplifiedScanScheduler pool) (p : pool),
      _scan_thread_pool s = Some p -> P p -> is_resize o = true ->
      exists p' tr,
        run_op o s = Done tt (with_pool (Some p') s) tr
        /\ P p' /\ Forall P (pool_states tr).
Proof.
  intros P Hmin Hmax o s p Hp HP Ho.
  destruct o; try discriminate Ho; cbn [run_op].
  - rewrite (reset_thread_num_run s p _ _ Hp).
    destruct ((tp_max_threads p =? new_max_thread_num)
              && (tp_min_threads p =? new_min_thread_num)).
    { exists p, []. rewrite (with_pool_some s p Hp). auto. }
    destruct (new_max_thread_num >=? tp_max_threads p); cbv zeta;
      eexists; eexists; (split; [reflexivity|]);
      match goal with
      | |- context [two_phase_trace ?c1 ?r1 ?w1 ?c2 ?r2 ?w2] =>
          destruct (two_phase_trace_calls c1 r1 w1 c2 r2 w2)
            as (_ & _ & Hq & _);
          rewrite Hq
      end; split; auto.
  - rewrite (reset_max_thread_num_run s p _ Hp).
    destruct (tp_max_threads p =? thread_num).
    { exists p, []. rewrite (with_pool_some s p Hp). auto. }
    cbv zeta. eexists; eexists. split; [reflexivity|].
    split; [auto|].
    pose proof (Hmax thread_num p HP) as H1.
    destruct (tp_set_max_threads thread_num p) as [[|? ?] ?]; cbn in *;
      auto.
  - rewrite (reset_min_thread_num_run s p _ Hp).
    destruct (tp_min_threads p =? thread_num).
    { exists p, []. rewrite (with_pool_some s p Hp). auto. }
    cbv zeta. eexists; eexists. split; [reflexivity|].
    split; [auto|].
    pose proof (Hmin thread_num p HP) as H1.
    destruct (tp_set_min_threads thread_num p) as [[|? ?] ?]; cbn in *;
      auto.
Qed.

(** X4. The resize operations reach the pool through its two bound
    setters only: a property of the pool that both setters keep, whatever
    they answer, holds after any sequence of resize operations and at
    every pool state in between. *)
Theorem resize_keeps_what_setters_keep :
  forall (P : pool -> Prop),
    (forall n p, P p -> P (snd (tp_set_min_threads n p))) ->
    (forall n p, P p -> P (snd (tp_set_max_threads n p))) ->
    forall (os : list Op) (s : SimplifiedScanScheduler pool) (p : pool),
      _scan_thread_pool s = Some p -> P p ->
      forallb is_resize os = true ->
      exists p' tr,
        run_ops os s = Done tt (with_pool (Some p') s) tr
        /\ P p' /\ Forall P (pool_states tr).
Proof.
  intros P Hmin Hmax os.
  induction os as [|o os IH]; intros s p Hp HP Hos.
  - exists p, []. cbn. rewrite (with_pool_some s p Hp). auto.
  - cbn in Hos. apply andb_true_iff in Hos as [Ho Hos].
    destruct (resize_keeps_setter_invariant P Hmin Hmax o s p Hp HP Ho)
      as (p1 & t1 & R1 & P1 & F1).
    destruct (IH (with_pool (Some p1) s) p1 eq_refl P1 Hos)
      as (p2 & t2 & R2 & P2 & F2).
    exists p2, (t1 ++ t2). cbn [run_ops]. unfold bind.
    rewrite R1, R2, with_pool_twice.
    split; [reflexivity|]. split; [exact P2|].
    unfold pool_states in *. rewrite flat_map_app.
    apply Forall_app. split; assumption.
Qed.

(** X5. The destructor of a scheduler whose [_scan_thread_pool] is empty
    (never started) dereferences the empty pointer: it calls [stop],
    which reaches for the pool without a test. *)
Theorem destroy_unstarted_dereferences_null :
  forall (s : SimplifiedScanScheduler pool),
    _scan_thread_pool s = None -> destroy s = NullDeref.
Proof.
  intros [q b c n g l] Hp. cbn in Hp. subst q. reflexivity.
Qed.

(** X6. [stop] is not guarded against a second shutdown: the destructor
    of a scheduler that has already been stopped shuts the pool down and
    waits for it once more, then writes its one log line; the pool has
    seen [shutdown, wait, shutdown, wait]. *)
Theorem destroy_after_stop_shuts_down_again :
  forall (s : SimplifiedScanScheduler pool) (p : pool),
    _scan_thread_pool s = Some p ->
    exists tr,
      stop_then_destroy s
      = Done tt
          (with_pool
             (Some (tp_wait (tp_shutdown (tp_wait (tp_shutdown p)))))
             (with_is_stop true s))
          tr
      /\ pool_calls tr = [Shutdown; Wait; Shutdown; Wait]
      /\ log_lines tr
         = [(INFO, [text "Scanner sche "; text (_sched_name s);
                    text " shutdown"])].
Proof.
  intros [q b c n g l] p Hp. cbn in Hp. subst q.
  eexists. split; [reflexivity|]. split; reflexivity.
Qed.

(** X7. No sequence of calls changes the scheduler's name, its workload
    group or its cgroup handle, and none clears [_is_stop] once it is
    set: stopping is final. *)
Theorem identity_members_are_immutable :
  forall (os : list Op) (s s' : SimplifiedScanScheduler pool)
         (tr : list (Event pool)),
    run_ops os s = Done tt s' tr ->
    _sched_name s' = _sched_name s
    /\ _workload_group s' = _workload_group s
    /\ _cgroup_cpu_ctl s' = _cgroup_cpu_ctl s
    /\ (_is_stop s = true -> _is_stop s' = true).
Proof.
  intros os s s' tr Hrun.
  destruct (keeps_run_ops os _ _ _ _ Hrun) as (A & B & C & _ & D & _).
  auto.
Qed.

(** X8. Setting the maximum and reading it back: when
    [reset_max_thread_num n] logs no failure, [get_max_threads] returns
    [n] right after it. *)
Theorem reset_max_then_get_max :
  forall (BS : BoundSetters pool) (s s' : SimplifiedScanScheduler pool)
         (p : pool) (n v : Z) (tr : list (Event pool)),
    _scan_thread_pool s = Some p ->
    reset_max_then_get n s = Done v s' tr ->
    log_lines tr = [] ->
    v = n.
Proof.
  intros BS s s' p n v tr Hp Hrun Hlog.
  unfold reset_max_then_get, bind in Hrun.
  rewrite (reset_max_thread_num_run s p n Hp) in Hrun.
  destruct (tp_max_threads p =? n) eqn:Hsame.
  - unfold get_max_threads, pool_get in Hrun. rewrite Hp in Hrun.
    inversion Hrun; subst. apply Z.eqb_eq. exact Hsame.
  - cbv zeta in Hrun. cbn in Hrun. inversion Hrun; subst. clear Hrun.
    apply set_max_threads_ok.
    destruct (ok (fst (tp_set_max_threads n p))) eqn:Hok; [reflexivity|].
    unfold logged_unless_ok in Hlog. rewrite Hok in Hlog.
    discriminate Hlog.
Qed.

(** X9. [reset_thread_num] never stops half way: when it calls the pool
    at all it makes both set calls, the second one whatever the first
    one answered. *)
Theorem reset_thread_num_runs_both_phases :
  forall (s s' : SimplifiedScanScheduler pool) (p : pool)
         (new_max new_min : Z) (tr : list (Event pool)),
    _scan_thread_pool s = Some p ->
    reset_thread_num new_max new_min s = Done tt s' tr ->
    pool_calls tr <> [] ->
    In (SetMaxThreads new_max) (pool_calls tr)
    /\ In (SetMinThreads new_min) (pool_calls tr)
    /\ List.length (pool_statuses tr) = 2%nat.
Proof.
  intros s s' p new_max new_min tr Hp Hrun Hcalls.
  rewrite (reset_thread_num_run s p new_max new_min Hp) in Hrun.
  destruct ((tp_max_threads p =? new_max) && (tp_min_threads p =? new_min)).
  { inversion Hrun; subst. contradiction Hcalls. reflexivity. }
  destruct (new_max >=? tp_max_threads p); cbv zeta in Hrun;
    inversion Hrun; subst; clear Hrun;
    match goal with
    | |- context [two_phase_trace ?c1 ?r1 ?w1 ?c2 ?r2 ?w2] =>
        destruct (two_phase_trace_calls c1 r1 w1 c2 r2 w2)
          as (Hc & Hs & _ & _);
        rewrite Hc, Hs
    end; cbn; auto.
Qed.

End MoreProperties.

(** ** The further properties on concrete schedulers *)

Lemma SpecPool_accepts_valid_bounds :
  forall checked, @AcceptsValidBounds SpecPool.t (SpecPool.ops checked).
Proof.
  intros checked. split; intros n p H; cbn in *;
    unfold SpecPool.set_max_threads, SpecPool.set_min_threads.
  - replace (SpecPool.min_threads p >? n) with false
      by (symmetry; rewrite Z.gtb_ltb; apply Z.ltb_ge; exact H).
    rewrite andb_false_r. reflexivity.
  - replace (n >? SpecPool.max_threads p) with false
      by (symmetry; rewrite Z.gtb_ltb; apply Z.ltb_ge; exact H).
    rewrite andb_false_r. reflexivity.
Qed.

Lemma SpecPool_checked_set_min_keeps_order :
  forall n p,
    SpecPool.min_threads p <= SpecPool.max_threads p ->
    SpecPool.min_threads (snd (SpecPool.set_min_threads true n p))
    <= SpecPool.max_threads (snd (SpecPool.set_min_threads true n p)).
Proof.
  intros n p H. unfold SpecPool.set_min_threads. cbn [andb].
  destruct (n >? SpecPool.max_threads p) eqn:E; cbn; [exact H|].
  rewrite Z.gtb_ltb in E. apply Z.ltb_ge in E. exact E.
Qed.

Lemma SpecPool_checked_set_max_keeps_order :
  forall n p,
    SpecPool.min_threads p <= SpecPool.max_threads p ->
    SpecPool.min_threads (snd (SpecPool.set_max_threads true n p))
    <= SpecPool.max_threads (snd (SpecPool.set_max_threads true n p)).
Proof.
  intros n p H. unfold SpecPool.set_max_threads. cbn [andb].
  destruct (SpecPool.min_threads p >? n) eqn:E; cbn; [exact H|].
  rewrite Z.gtb_ltb in E. apply Z.ltb_ge in E. exact E.
Qed.

(** X1 on the running scheduler: from [(8, 1)] to [(4, 2)] on the pool
    that validates its bounds. *)
Lemma reset_thread_num_accepted_by_validating_pool_witness :
  exists p' tr,
    reset_thread_num (TP := SpecPool.checked) 4 2 Examples.running
    = Done tt (with_pool (Some p') Examples.running) tr
    /\ log_lines tr = []
    /\ SpecPool.max_threads p' = 4
    /\ SpecPool.min_threads p' = 2.
Proof.
  destruct (reset_thread_num_accepted_by_validating_pool
              (TP := SpecPool.checked)
              (SpecPool_bound_setters true)
              (SpecPool_accepts_valid_bounds true)
              Examples.running (SpecPool.mk 1 8 2 [] [] false) 4 2
              eq_refl ltac:(cbn; lia) ltac:(lia))
    as (p' & tr & R & _ & L & A & B & _).
  exists p', tr. auto.
Defined.

(** X2 on the running scheduler: [reset_thread_num 4 2] a second time. *)
Lemma reset_thread_num_twice_witness :
  exists s1 tr1,
    reset_thread_num (TP := SpecPool.checked) 4 2 Examples.running
    = Done tt s1 tr1
    /\ reset_thread_num (TP := SpecPool.checked) 4 2 s1 = Done tt s1 [].
Proof.
  eexists. eexists. split; [reflexivity|].
  eapply (reset_thread_num_twice (TP := SpecPool.checked)
            (SpecPool_bound_setters true) Examples.running);
    reflexivity.
Defined.

(** X3 on the running scheduler: a refused resize, a submission, a stop,
    a rejected submission and a look at the queue. *)
Lemma started_scheduler_never_faults_witness :
  exists s' tr p',
    run_ops (TP := SpecPool.checked)
      [OpResetThreadNum 2 5; OpSubmitScanTask Examples.task7; OpStop;
       OpSubmitScanTask Examples.task7; OpGetQueueSize]
      Examples.running
    = Done tt s' tr
    /\ _scan_thread_pool s' = Some p'.
Proof.
  apply (started_scheduler_never_faults (TP := SpecPool.checked)
           [OpResetThreadNum 2 5; OpSubmitScanTask Examples.task7; OpStop;
            OpSubmitScanTask Examples.task7; OpGetQueueSize]
           Examples.running (SpecPool.mk 1 8 2 [] [] false)
           eq_refl eq_refl).
Defined.

(** X4 on the running scheduler and the pool that validates its bounds:
    [min <= max] through three resizes, two of them refused in part. *)
Lemma resize_keeps_what_setters_keep_witness :
  exists p' tr,
    run_ops (TP := SpecPool.checked)
      [OpResetThreadNum 2 5; OpResetMaxThreadNum 0; OpResetMinThreadNum 9]
      Examples.running
    = Done tt (with_pool (Some p') Examples.running) tr
    /\ SpecPool.min_threads p' <= SpecPool.max_threads p'
    /\ Forall (fun q => SpecPool.min_threads q <= SpecPool.max_threads q)
              (pool_states tr).
Proof.
  apply (resize_keeps_what_setters_keep (TP := SpecPool.checked)
           (fun q => SpecPool.min_threads q <= SpecPool.max_threads q)
           SpecPool_checked_set_min_keeps_order
           SpecPool_checked_set_max_keeps_order
           [OpResetThreadNum 2 5; OpResetMaxThreadNum 0;
            OpResetMinThreadNum 9]
           Examples.running (SpecPool.mk 1 8 2 [] [] false) eq_refl).
  - cbn. lia.
  - reflexivity.
Defined.

(** X5 on the scheduler as the constructor leaves it. *)
Lemma destroy_unstarted_dereferences_null_witness :
  destroy (TP := SpecPool.checked) Examples.constructed = NullDeref.
Proof.
  apply (destroy_unstarted_dereferences_null (TP := SpecPool.checked)
           Examples.constructed eq_refl).
Defined.

(** X6 on the running scheduler. *)
Lemma destroy_after_stop_shuts_down_again_witness :
  exists s' tr,
    stop_then_destroy (TP := SpecPool.checked) Examples.running
    = Done tt s' tr
    /\ pool_calls tr = [Shutdown; Wait; Shutdown; Wait].
Proof.
  destruct (destroy_after_stop_shuts_down_again (TP := SpecPool.checked)
              Examples.running (SpecPool.mk 1 8 2 [] [] false) eq_refl)
    as (tr & R & C & _).
  eexists. exists tr. split; [exact R|exact C].
Defined.

(** X7 on the running scheduler: stopped, started again and resized. *)
Lemma identity_members_are_immutable_witness :
  exists s' tr,
    run_ops (TP := SpecPool.checked)
      [OpStop; OpStart 4 1 2; OpResetThreadNum 3 1] Examples.running
    = Done tt s' tr
    /\ _sched_name s' = "scan"%string
    /\ _workload_group s' = "system"%string
    /\ _is_stop s' = true.
Proof.
  eexists. eexists. split; [reflexivity|].
  pose proof (fun s' tr =>
                identity_members_are_immutable (TP := SpecPool.checked)
                  [OpStart 4 1 2; OpResetThreadNum 3 1]
                  (with_is_stop true Examples.running) s' tr) as T.
  edestruct T as (A & B & _ & D); [reflexivity|].
  split; [exact A|]. split; [exact B|]. apply D. reflexivity.
Defined.

(** X8 on the running scheduler: the maximum set to 5 and read back. *)
Lemma reset_max_then_get_max_witness :
  exists v s' tr,
    reset_max_then_get (TP := SpecPool.checked) 5 Examples.running
    = Done v s' tr
    /\ v = 5.
Proof.
  do 3 eexists. split; [reflexivity|].
  eapply (reset_max_then_get_max (TP := SpecPool.checked)
            (SpecPool_bound_setters true) Examples.running);
    reflexivity.
Defined.

(** X9 on the running scheduler: the pool refuses the maximum of
    [reset_thread_num 2 5] after it took the minimum; both calls are
    made. *)
Lemma reset_thread_num_runs_both_phases_witness :
  exists s' tr,
    reset_thread_num (TP := SpecPool.checked) 2 5 Examples.running
    = Done tt s' tr
    /\ In (SetMaxThreads 2) (pool_calls tr)
    /\ In (SetMinThreads 5) (pool_calls tr)
    /\ map ok (pool_statuses tr) = [true; false].
Proof.
  eexists. eexists. split; [reflexivity|].
  pose proof (fun s' tr =>
                reset_thread_num_runs_both_phases (TP := SpecPool.checked)
                  Examples.running s' (SpecPool.mk 1 8 2 [] [] false)
                  2 5 tr eq_refl) as T.
  edestruct T as (A & B & _); [reflexivity | discriminate |].
  split; [exact A|]. split; [exact B|reflexivity].
Defined.
